(** * soil_grids: the SoilGrids field-capacity / wilting-point accessor

    A shallow embedding of [soil_grids/soil_grids.py] and the properties of
    its cache-or-download step and of its raster value transform.

    Layout of the development:
    - [PyStr]      the few [str] methods the module relies on;
    - [PosixPath]  [posixpath.basename], [dirname], [join], [normpath],
                   [abspath], [expanduser];
    - [Numeric]    raster cell values and the cell-wise operations;
    - [Rasters]    rasters, as the module uses them;
    - [OS]         the file system as seen through [os] and [shutil];
    - [Program]    the class [SoilGrids] itself, in a state-and-exception
                   monad, and the routine of the specification;
    - [Binary64]   the value transform on double-precision floats;
    - [Example]    a small world to run the module in;
    - the lemmas on paths, the file system, cells and the program;
    - the properties of the specification, C1 to C10, and their instances
      on the small world. *)

From Stdlib Require Import Bool Arith ZArith QArith Lia Lqa List Ascii String.
From Stdlib Require PrimFloat Uint63.
Import ListNotations.

Local Open Scope string_scope.

(** ** Python [str] methods *)

Module PyStr.

Definition slash : ascii := "/"%char.
Definition tilde : ascii := "~"%char.

Definition is_slash (c : ascii) : bool := Ascii.eqb c slash.

(** [s.startswith(p)] and [s.endswith("/")]. *)
Definition startswith (s p : string) : bool := String.prefix p s.

Fixpoint endswith_slash (s : string) : bool :=
  match s with
  | EmptyString => false
  | String c EmptyString => is_slash c
  | String _ r => endswith_slash r
  end.

(** [s == "/" * len(s)]. *)
Fixpoint all_slashes (s : string) : bool :=
  match s with
  | EmptyString => true
  | String c r => is_slash c && all_slashes r
  end.

(** [s.rstrip("/")]. *)
Fixpoint rstrip_slash (s : string) : string :=
  match s with
  | EmptyString => EmptyString
  | String c r =>
      match rstrip_slash r with
      | EmptyString => if is_slash c then EmptyString else String c EmptyString
      | r' => String c r'
      end
  end.

(** [(s[:i], s[i:])] for [i = s.rfind("/") + 1]: the part up to and
    including the last slash, and the part after it. Without a slash
    [rfind] is [-1], [i] is [0] and the first part is empty. *)
Fixpoint rsplit_slash (s : string) : string * string :=
  match s with
  | EmptyString => (EmptyString, EmptyString)
  | String c r =>
      let (h, t) := rsplit_slash r in
      if is_slash c then (String c h, t)
      else match h with
           | EmptyString => (EmptyString, String c t)
           | _ => (String c h, t)
           end
  end.

(** [(s[:i], s[i:])] for [i = s.find("/")], or [i = len(s)] when there is
    no slash. *)
Fixpoint lsplit_slash (s : string) : string * string :=
  match s with
  | EmptyString => (EmptyString, EmptyString)
  | String c r =>
      if is_slash c then (EmptyString, s)
      else let (h, t) := lsplit_slash r in (String c h, t)
  end.

(** [s.split("/")]. *)
Fixpoint split_slash (s : string) : list string :=
  match s with
  | EmptyString => [EmptyString]
  | String c r =>
      if is_slash c then EmptyString :: split_slash r
      else match split_slash r with
           | h :: t => String c h :: t
           | [] => [String c EmptyString]
           end
  end.

(** ["/".join(comps)]. *)
Definition join_slash (comps : list string) : string :=
  String.concat "/" comps.

(** [s or d]. *)
Definition or_else (s d : string) : string :=
  match s with EmptyString => d | _ => s end.

End PyStr.

(** ** [posixpath] *)

Module PosixPath.
Import PyStr.

(** What [os.getcwd], [os.environ] and the [pwd] database answer. *)
Record Env := {
  getcwd : string;
  environ_HOME : option string;
  (** [pwd.getpwuid(os.getuid()).pw_dir], [None] for [KeyError] *)
  getpwuid_dir : option string;
  (** [pwd.getpwnam(name).pw_dir], [None] for [KeyError] *)
  getpwnam_dir : string -> option string
}.

Definition isabs (s : string) : bool := startswith s "/".

Definition basename (p : string) : string := snd (rsplit_slash p).

Definition dirname (p : string) : string :=
  let head := fst (rsplit_slash p) in
  if negb (String.eqb head "") && negb (all_slashes head)
  then rstrip_slash head
  else head.

(** [posixpath.join(a, b)] for one trailing component. *)
Definition join (a b : string) : string :=
  if startswith b "/" then b
  else if String.eqb a "" || endswith_slash a then a ++ b
  else a ++ "/" ++ b.

(** One round of the loop of [normpath] over the components. *)
Definition normpath_step (initial_slashes : nat) (new_comps : list string)
    (comp : string) : list string :=
  if String.eqb comp "" || String.eqb comp "." then new_comps
  else if negb (String.eqb comp "..")
          || (Nat.eqb initial_slashes 0 && Nat.eqb (List.length new_comps) 0)
          || (negb (Nat.eqb (List.length new_comps) 0)
              && String.eqb (List.last new_comps "") "..")
  then new_comps ++ [comp]
  else List.removelast new_comps.

Fixpoint repeat_slash (n : nat) : string :=
  match n with
  | O => EmptyString
  | S k => String slash (repeat_slash k)
  end.

Definition normpath (path : string) : string :=
  if String.eqb path "" then "."
  else
    let initial_slashes :=
      if startswith path "/" then
        if startswith path "//" && negb (startswith path "///") then 2%nat
        else 1%nat
      else 0%nat in
    let comps := split_slash path in
    let new_comps := fold_left (normpath_step initial_slashes) comps [] in
    let path := join_slash new_comps in
    let path := repeat_slash initial_slashes ++ path in
    or_else path ".".

Definition abspath (env : Env) (path : string) : string :=
  let path := if negb (isabs path) then join (getcwd env) path else path in
  normpath path.

Definition expanduser (env : Env) (path : string) : string :=
  match path with
  | String c r =>
      if Ascii.eqb c tilde then
        let (name, rest) := lsplit_slash r in
        let userhome :=
          if String.eqb name "" then
            match environ_HOME env with
            | Some h => Some h
            | None => getpwuid_dir env
            end
          else getpwnam_dir env name in
        match userhome with
        | None => path
        | Some h => or_else (rstrip_slash h ++ rest) "/"
        end
      else path
  | EmptyString => path
  end.

End PosixPath.

(** ** The shape of normalised paths *)

Module PathShape.
Import PyStr PosixPath.

(** A string without a slash. *)
Fixpoint noslash (s : string) : bool :=
  match s with
  | EmptyString => true
  | String c r => negb (is_slash c) && noslash r
  end.

(** A component that [normpath] keeps as it is: not empty, no slash, and
    neither [.] nor [..]. *)
Definition plain (c : string) : bool :=
  noslash c && negb (String.eqb c "") && negb (String.eqb c ".")
  && negb (String.eqb c "..").

Definition plainP (c : string) : Prop := plain c = true.
Definition noslashP (c : string) : Prop := noslash c = true.

(** The number of leading slashes that [normpath] keeps: two for exactly
    two, one for one or for three and more, none for none. *)
Definition initial_slashes (path : string) : nat :=
  if startswith path "/" then
    if startswith path "//" && negb (startswith path "///") then 2%nat
    else 1%nat
  else 0%nat.

(** The home directory [expanduser] finds for the name after the tilde,
    the own one for no name. *)
Definition userhome (env : Env) (name : string) : option string :=
  if String.eqb name "" then
    match environ_HOME env with
    | Some h => Some h
    | None => getpwuid_dir env
    end
  else getpwnam_dir env name.

(** What [join] puts between [a] and a relative path. *)
Definition separator (a : string) : string :=
  if String.eqb a "" || endswith_slash a then "" else "/".

(** The components of [normpath], before they are joined. *)
Definition norm_comps (path : string) : list string :=
  fold_left (normpath_step (initial_slashes path)) (split_slash path) [].

(** What [abspath] hands to [normpath]. *)
Definition anchored (env : Env) (path : string) : string :=
  if negb (isabs path) then join (getcwd env) path else path.

(** A name in the one spelling [abspath] gives: absolute and normalised.
    Two such names that differ name different files, links apart. *)
Definition canonical (path : string) : Prop :=
  isabs path = true /\ normpath path = path.

End PathShape.

(** ** Raster cell values

    A cell holds a number, an infinity or the not-a-number marker. Numbers
    are exact rationals: rounding is not part of the model, the order and
    the special values are. *)

Module Numeric.

Inductive cell : Type :=
| NaN
| NegInf
| PosInf
| Fin (q : Q).

Definition Qltb (x y : Q) : bool := negb (Qle_bool y x).

(** [a == b] on cells: not-a-number equals nothing. *)
Definition cell_eqb (a b : cell) : bool :=
  match a, b with
  | Fin x, Fin y => Qeq_bool x y
  | PosInf, PosInf => true
  | NegInf, NegInf => true
  | _, _ => false
  end.

Definition is_nan (a : cell) : bool :=
  match a with NaN => true | _ => false end.

(** [a / d] for a number [d]. *)
Definition cell_div (a : cell) (d : Q) : cell :=
  match a with
  | NaN => NaN
  | Fin q =>
      if Qeq_bool d 0 then
        if Qeq_bool q 0 then NaN else if Qltb q 0 then NegInf else PosInf
      else Fin (q / d)
  | PosInf => if Qltb d 0 then NegInf else PosInf
  | NegInf => if Qltb d 0 then PosInf else NegInf
  end.

(** [np.maximum(a, lo)] and [np.minimum(a, hi)] for numbers [lo], [hi];
    both hand a not-a-number through. *)
Definition cell_maximum (a : cell) (lo : Q) : cell :=
  match a with
  | NaN => NaN
  | NegInf => Fin lo
  | PosInf => PosInf
  | Fin q => if Qltb q lo then Fin lo else Fin q
  end.

Definition cell_minimum (a : cell) (hi : Q) : cell :=
  match a with
  | NaN => NaN
  | NegInf => NegInf
  | PosInf => Fin hi
  | Fin q => if Qltb hi q then Fin hi else Fin q
  end.

(** [np.clip(a, lo, hi)] is [minimum(maximum(a, lo), hi)]. *)
Definition cell_clip (a : cell) (lo hi : Q) : cell :=
  cell_minimum (cell_maximum a lo) hi.

(** [np.where(c, x, y)] at one cell. *)
Definition cell_where (c : bool) (x y : cell) : cell :=
  if c then x else y.

End Numeric.

(** ** Rasters

    What the module uses of the [rasters] package. A [Raster] carries a
    two-dimensional array, a geometry and a [nodata] attribute. Its
    constructor, given an array of floats, puts not-a-number wherever a
    cell equals the [nodata] it is given. [where] constructs its result
    with the [nodata] of its raster operand; [/] and [clip] hand their
    array to [Raster.contain], which returns the bare array when it has
    exactly one element and constructs a [Raster] otherwise. So an
    expression of rasters evaluates to a [Raster] or to a bare array. *)

Module Rasters.
Import Numeric.

(** [nodata] is [None] where the raster declares no missing value. *)
Record Raster (Geometry : Type) : Type := mkRaster {
  array : list (list cell);
  geometry : Geometry;
  nodata : option cell
}.
Arguments mkRaster {Geometry} _ _ _.
Arguments array {Geometry} _.
Arguments geometry {Geometry} _.
Arguments nodata {Geometry} _.

(** A [Raster], or a bare NumPy array with neither geometry nor
    [nodata]. *)
Inductive Image (Geometry : Type) : Type :=
| as_raster (r : Raster Geometry)
| as_ndarray (a : list (list cell)).
Arguments as_raster {Geometry} _.
Arguments as_ndarray {Geometry} _.

(** The array of either. *)
Definition cells {Geometry : Type} (x : Image Geometry) : list (list cell) :=
  match x with
  | as_raster r => array r
  | as_ndarray a => a
  end.

Fixpoint zip_with {A B C : Type} (f : A -> B -> C) (l : list A) (m : list B)
    : list C :=
  match l, m with
  | a :: l', b :: m' => f a b :: zip_with f l' m'
  | _, _ => []
  end.

(** The cell at row [i], column [j]. *)
Definition cell_at (a : list (list cell)) (i j : nat) : option cell :=
  match nth_error a i with
  | Some row => nth_error row j
  | None => None
  end.

(** [np.size(a)]: the number of cells. *)
Definition size (a : list (list cell)) : nat :=
  List.length (List.concat a).

(** [np.where(a == nodata, np.nan, a)] at one cell; nothing equals
    [None]. *)
Definition mask_cell (nodata : option cell) (v : cell) : cell :=
  match nodata with
  | Some n => cell_where (cell_eqb v n) NaN v
  | None => v
  end.

Section Ops.
Context {Geometry : Type}.

(** [Raster(a, geometry, nodata)] on an array of floats, which is what
    [where], [/] and [clip] give. *)
Definition Raster_init (a : list (list cell)) (geometry : Geometry)
    (nodata : option cell) : Raster Geometry :=
  mkRaster (map (map (mask_cell nodata)) a) geometry nodata.

(** [self.contain(a)]. *)
Definition contain (self : Raster Geometry) (a : list (list cell))
    : Image Geometry :=
  if Nat.eqb (size a) 1 then as_ndarray a
  else as_raster (Raster_init a (geometry self) (nodata self)).

(** [image == x]: the truth values, in a raster or, for one cell, in a
    bare array; [where] reads the truth values of either. *)
Definition raster_eq (image : Raster Geometry) (x : cell) : list (list bool) :=
  map (map (fun v => cell_eqb v x)) (array image).

(** [rt.where(condition, x, image)]. *)
Definition rt_where (condition : list (list bool)) (x : cell)
    (image : Raster Geometry) : Raster Geometry :=
  Raster_init
    (zip_with (zip_with (fun c v => cell_where c x v)) condition (array image))
    (geometry image) (nodata image).

(** [image.nodata = x]. *)
Definition set_nodata (image : Raster Geometry) (x : cell) : Raster Geometry :=
  mkRaster (array image) (geometry image) (Some x).

(** [image / d]. *)
Definition raster_truediv (image : Raster Geometry) (d : Q) : Image Geometry :=
  contain image (map (map (fun v => cell_div v d)) (array image)).

(** [rt.clip(image, lo, hi)]; of a bare array it is [np.clip]. *)
Definition rt_clip (image : Image Geometry) (lo hi : Q) : Image Geometry :=
  match image with
  | as_raster r => contain r (map (map (fun v => cell_clip v lo hi)) (array r))
  | as_ndarray a => as_ndarray (map (map (fun v => cell_clip v lo hi)) a)
  end.

End Ops.
End Rasters.

(** ** The file system, as [os] and [shutil] show it

    A file system maps path names to nodes. Names are taken as they are
    spelled: two spellings of one path are two names, and there are no
    symbolic links. On canonical names, absolute and normalised as
    [abspath] gives them, a file and its spelling are one; these are the
    names an instance made by [__init__] works with. The empty name never
    exists and a name made of slashes only is the root directory. A
    directory's entries are the names that extend its own by a slash and
    more. *)

Module OS.
Import PyStr PosixPath.

Inductive node : Type :=
| File (content : string)
| Dir.

Record state : Type := mkState {
  files : string -> option node;
  (** what [time.perf_counter] reads, in seconds *)
  clock : Q
}.

Inductive exn : Type :=
| IOError (message : string)
| FileNotFoundError (path : string)
| FileExistsError (path : string)
| NotADirectoryError (path : string)
| IsADirectoryError (path : string)
| shutil_Error (message : string)
| RasterError (message : string).

(** The errors that come from the raster package. *)
Definition is_RasterError (e : exn) : bool :=
  match e with RasterError _ => true | _ => false end.

Definition stat (st : state) (p : string) : option node :=
  if String.eqb p "" then None
  else if all_slashes p then Some Dir
  else files st p.

(** [os.path.exists] and [os.path.isdir]. *)
Definition exists_ (st : state) (p : string) : bool :=
  match stat st p with Some _ => true | None => false end.

Definition isdir (st : state) (p : string) : bool :=
  match stat st p with Some Dir => true | _ => false end.

Definition isfile (st : state) (p : string) : bool :=
  match stat st p with Some (File _) => true | _ => false end.

(** [strip_under d k] is [Some s] when [k] is [d] itself or an entry below
    it, [k = d ++ s] with [s] empty or starting with a slash. *)
Fixpoint strip_under (d k : string) : option string :=
  match d with
  | EmptyString =>
      match k with
      | EmptyString => Some k
      | String c _ => if is_slash c then Some k else None
      end
  | String a d' =>
      match k with
      | String b k' => if Ascii.eqb a b then strip_under d' k' else None
      | EmptyString => None
      end
  end.

Definition under (d k : string) : bool :=
  match strip_under d k with Some _ => true | None => false end.

Definition set_files (st : state) (f : string -> option node) : state :=
  mkState f (clock st).

(** A step that writes at the name [out] and nowhere else: every other
    name has after it what it had before. *)
Definition writes_only (out : string) (st st' : state) : Prop :=
  forall p, p <> out -> files st' p = files st p.

(** The directories [os.makedirs] has to create for [d]: [d] and its
    parents, up to the nearest one that exists. A file in the way stops the
    creation of [child], the directory below it. [fuel] bounds the walk up;
    the length of [d] is enough. *)
Fixpoint missing_dirs (fuel : nat) (st : state) (child d : string)
    : exn + list string :=
  match fuel with
  | O => inr []
  | S n =>
      if String.eqb d "" then inr []
      else match stat st d with
           | Some Dir => inr []
           | Some (File _) => inl (NotADirectoryError child)
           | None =>
               match missing_dirs n st d (dirname d) with
               | inl e => inl e
               | inr l => inr (d :: l)
               end
           end
  end.

Definition mem (p : string) (l : list string) : bool :=
  existsb (String.eqb p) l.

(** [os.makedirs(d, exist_ok=True)]. *)
Definition makedirs (d : string) (st : state) : exn + state :=
  if String.eqb d "" then inl (FileNotFoundError d)
  else match stat st d with
       | Some (File _) => inl (FileExistsError d)
       | _ =>
           match missing_dirs (S (String.length d)) st d d with
           | inl e => inl e
           | inr created =>
               inr (set_files st
                      (fun p => if mem p created then Some Dir else files st p))
           end
       end.

(** A new entry [p] needs a name, and the directory that has to hold it
    must be there; a name without directory part is one of the working
    directory. *)
Definition check_parent (st : state) (p : string) : option exn :=
  let d := dirname p in
  if String.eqb p "" then Some (FileNotFoundError p)
  else if String.eqb d "" then None
  else match stat st d with
       | Some Dir => None
       | Some (File _) => Some (NotADirectoryError p)
       | None => Some (FileNotFoundError p)
       end.

(** The files after [src], with all below it, has been renamed to [dst]. *)
Definition rename_tree (src dst : string) (f : string -> option node)
    : string -> option node :=
  fun k =>
    match strip_under dst k with
    | Some s => f (src ++ s)
    | None => if under src k then None else f k
    end.

(** [os.rename(src, dst)], with the errors that the fallback of
    [shutil.move] (copy, then delete) ends in as well. *)
Definition rename (src dst : string) (st : state) : exn + state :=
  match stat st src with
  | None => inl (FileNotFoundError src)
  | Some n =>
      match check_parent st dst with
      | Some e => inl e
      | None =>
          match n, stat st dst with
          | File _, Some Dir => inl (IsADirectoryError dst)
          | Dir, Some _ => inl (FileExistsError dst)
          | Dir, None =>
              if under src dst
              then inl (shutil_Error "Cannot move a directory into itself")
              else inr (set_files st (rename_tree src dst (files st)))
          | File _, _ => inr (set_files st (rename_tree src dst (files st)))
          end
      end
  end.

(** [shutil.move(src, dst)]: into [dst] when that is a directory, onto
    [dst] otherwise. *)
Definition move (src dst : string) (st : state) : exn + state :=
  if isdir st dst then
    if String.eqb src dst then inr st
    else
      let real_dst := join dst (basename (rstrip_slash src)) in
      if exists_ st real_dst
      then inl (shutil_Error ("Destination path '" ++ real_dst
                              ++ "' already exists"))
      else rename src real_dst st
  else rename src dst st.

End OS.

(** ** The module [soil_grids.py]

    The class [SoilGrids], method by method. An instance is the record of
    its attributes, which the state of a run holds next to the file system,
    the log and the trace of the calls that leave the process; the methods
    are computations on that state. *)

Module Program.
Import PyStr PosixPath Numeric Rasters OS.

(** Lines 12 to 14. *)
Definition DEFAULT_RESAMPLING : string := "cubic".
Definition DEFAULT_WORKING_DIRECTORY : string := ".".
Definition DEFAULT_DOWNLOAD_DIRECTORY : string := "SoilGrids_download".

(** Lines 53 and 54. *)
Definition FC_URL : string :=
  "https://zenodo.org/record/2784001/files/sol_watercontent.33kPa_usda.4b1c_m_250m_b0..0cm_1950..2017_v0.1.tif".
Definition WP_URL : string :=
  "https://zenodo.org/record/2784001/files/sol_watercontent.1500kPa_usda.3c2a1a_m_250m_b0..0cm_1950..2017_v0.1.tif".

(** The attributes of an instance. *)
Record SoilGrids : Type := mkSoilGrids {
  working_directory : string;
  source_directory : string;
  resampling : string
}.

(** [SoilGrids.__init__], lines 59 to 80. [None] is the default of the two
    directories; the default of [resampling] is [DEFAULT_RESAMPLING]. *)
Definition __init__ (env : Env) (working_directory source_directory : option string)
    (resampling : string) : SoilGrids :=
  let working_directory :=
    match working_directory with
    | None => abspath env (expanduser env DEFAULT_WORKING_DIRECTORY)
    | Some w => w
    end in
  let source_directory :=
    match source_directory with
    | None => join working_directory DEFAULT_DOWNLOAD_DIRECTORY
    | Some s => s
    end in
  mkSoilGrids
    (abspath env (expanduser env working_directory))
    (abspath env (expanduser env source_directory))
    resampling.

(** The properties [FC_filename] and [WP_filename], lines 93 to 115. *)
Definition FC_filename (self : SoilGrids) : string :=
  join (source_directory self) (basename FC_URL).

Definition WP_filename (self : SoilGrids) : string :=
  join (source_directory self) (basename WP_URL).

(** The two products, each with its URL and its local file name. *)
Inductive product : Type :=
| FieldCapacity
| WiltingPoint.

Definition product_URL (P : product) : string :=
  match P with
  | FieldCapacity => FC_URL
  | WiltingPoint => WP_URL
  end.

Definition product_filename (self : SoilGrids) (P : product) : string :=
  match P with
  | FieldCapacity => FC_filename self
  | WiltingPoint => WP_filename self
  end.

(** The resampling a call works with. *)
Definition effective_resampling (self : SoilGrids) (resampling : option string)
    : string :=
  match resampling with
  | None => Program.resampling self
  | Some r => r
  end.

(** What [self.logger.info] is called with. *)
Inductive log_record : Type :=
| file_already_downloaded (filename : string)
| downloading (URL filename : string)
| completed_download (download_duration : Q) (filename : string).

(** The double quote. *)
Definition dquote : string := String (ascii_of_nat 34) EmptyString.

(** [SoilGrids.__repr__], line 91. *)
Definition __repr__ (self : SoilGrids) : string :=
  "SoilGrids(source_directory=" ++ dquote ++ source_directory self ++ dquote
  ++ ")".

(** [f'wget -c -O "{partial_filename}" "{URL}"'], line 141. *)
Definition wget_command (partial_filename URL : string) : string :=
  "wget -c -O " ++ dquote ++ partial_filename ++ dquote
  ++ " " ++ dquote ++ URL ++ dquote.

Section WithCollaborators.

(** The target grids of the raster package. *)
Variable Geometry : Type.

(** [os.system]: what running a shell command does to the file system and
    how long it takes, with the exit status it returns. *)
Variable system : string -> OS.state -> Z * OS.state.

(** [rt.Raster.open(filename, geometry, resampling)] on a file system; it
    fails with the package's own error. *)
Variable Raster_open :
  (string -> option node) -> string -> option Geometry -> string ->
  string + Raster Geometry.

(** The calls that leave the process. *)
Inductive event : Type :=
| call_makedirs (directory : string)
| call_system (command : string)
| call_move (src dst : string)
| call_open (filename : string) (geometry : option Geometry)
    (resampling : string).

Record State : Type := mkProgState {
  self : SoilGrids;
  os : OS.state;
  log : list log_record;
  trace : list event
}.

(** Computations that read and write the state and may raise. *)
Definition M (A : Type) : Type := State -> State * (exn + A).

Definition ret {A : Type} (a : A) : M A := fun s => (s, inr a).

Definition raise {A : Type} (e : exn) : M A := fun s => (s, inl e).

Definition bind {A B : Type} (m : M A) (k : A -> M B) : M B :=
  fun s =>
    match m s with
    | (s', inr a) => k a s'
    | (s', inl e) => (s', inl e)
    end.

Notation "x <- m ;; k" := (bind m (fun x => k))
  (at level 61, m at next level, right associativity).
Notation "m ;;; k" := (bind m (fun _ => k))
  (at level 61, right associativity).

(** Reading [self]. *)
Definition get_self : M SoilGrids := fun s => (s, inr (self s)).

Definition with_os (s : State) (o : OS.state) : State :=
  mkProgState (self s) o (log s) (trace s).

Definition record (ev : event) (s : State) : State :=
  mkProgState (self s) (os s) (log s) (trace s ++ [ev]).

Definition add_log (r : log_record) (s : State) : State :=
  mkProgState (self s) (os s) (log s ++ [r]) (trace s).

(** [self.logger.info], [os.path.exists] and [time.perf_counter]. *)
Definition logger_info (r : log_record) : M unit :=
  fun s => (add_log r s, inr tt).

Definition path_exists (p : string) : M bool :=
  fun s => (s, inr (exists_ (os s) p)).

Definition perf_counter : M Q := fun s => (s, inr (clock (os s))).

(** [os.makedirs(d, exist_ok=True)], [os.system], [shutil.move] and
    [rt.Raster.open], each recorded in the trace. *)
Definition os_makedirs (d : string) : M unit :=
  fun s =>
    let s := record (call_makedirs d) s in
    match makedirs d (os s) with
    | inl e => (s, inl e)
    | inr o => (with_os s o, inr tt)
    end.

Definition os_system (command : string) : M Z :=
  fun s =>
    let s := record (call_system command) s in
    let (status, o) := system command (os s) in
    (with_os s o, inr status).

Definition shutil_move (src dst : string) : M unit :=
  fun s =>
    let s := record (call_move src dst) s in
    match move src dst (os s) with
    | inl e => (s, inl e)
    | inr o => (with_os s o, inr tt)
    end.

Definition rt_Raster_open (filename : string) (geometry : option Geometry)
    (resampling : string) : M (Raster Geometry) :=
  fun s =>
    let s := record (call_open filename geometry resampling) s in
    match Raster_open (files (os s)) filename geometry resampling with
    | inl msg => (s, inl (RasterError msg))
    | inr image => (s, inr image)
    end.

(** [SoilGrids.download_file], lines 117 to 153. *)
Definition download_file (URL filename : string) : M string :=
  b <- path_exists filename ;;
  if b then
    logger_info (file_already_downloaded filename) ;;;
    ret filename
  else
    logger_info (downloading URL filename) ;;;
    let directory := dirname filename in
    os_makedirs directory ;;;
    let partial_filename := filename ++ ".download" in
    let command := wget_command partial_filename URL in
    download_start <- perf_counter ;;
    os_system command ;;;
    download_end <- perf_counter ;;
    let download_duration := (download_end - download_start)%Q in
    logger_info (completed_download download_duration filename) ;;;
    b <- path_exists partial_filename ;;
    if negb b then raise (IOError ("unable to download URL: " ++ URL))
    else
      shutil_move partial_filename filename ;;;
      ret filename.

(** [SoilGrids.FC], lines 155 to 192. *)
Definition FC (geometry : option Geometry) (resampling : option string)
    : M (Image Geometry) :=
  self <- get_self ;;
  let resampling :=
    match resampling with
    | None => Program.resampling self
    | Some r => r
    end in
  let URL := FC_URL in
  let filename := FC_filename self in
  b <- path_exists filename ;;
  (if negb b then download_file URL filename ;;; ret tt else ret tt) ;;;
  image <- rt_Raster_open filename geometry resampling ;;
  let image := rt_where (raster_eq image (Fin 255)) NaN image in
  let image := set_nodata image NaN in
  let image := rt_clip (raster_truediv image 100) 0 1 in
  ret image.

(** [SoilGrids.WP], lines 194 to 231. *)
Definition WP (geometry : option Geometry) (resampling : option string)
    : M (Image Geometry) :=
  self <- get_self ;;
  let resampling :=
    match resampling with
    | None => Program.resampling self
    | Some r => r
    end in
  let URL := WP_URL in
  let filename := WP_filename self in
  b <- path_exists filename ;;
  (if negb b then download_file URL filename ;;; ret tt else ret tt) ;;;
  image <- rt_Raster_open filename geometry resampling ;;
  let image := rt_where (raster_eq image (Fin 255)) NaN image in
  let image := set_nodata image NaN in
  let image := rt_clip (raster_truediv image 100) 0 1 in
  ret image.

(** The accessor of a product. *)
Definition accessor (P : product) :
    option Geometry -> option string -> M (Image Geometry) :=
  match P with
  | FieldCapacity => FC
  | WiltingPoint => WP
  end.

(** A call of the accessor of [P] opens the raster with [used] as its
    resampling: what the call adds to the trace holds no open but with the
    file of [P], the geometry [geometry] and [used], and it holds that one
    whenever the call returns a raster. *)
Definition opens_with (P : product) (geometry : option Geometry)
    (resampling : option string) (used : string) (s : State) : Prop :=
  exists evs,
    trace (fst (accessor P geometry resampling s)) = (trace s ++ evs)%list
    /\ (forall f g r, In (call_open f g r) evs ->
          f = product_filename (self s) P /\ g = geometry /\ r = used)
    /\ (forall out, snd (accessor P geometry resampling s) = inr out ->
          In (call_open (product_filename (self s) P) geometry used) evs).

(** The opens among the calls. *)
Definition is_open (ev : event) : bool :=
  match ev with call_open _ _ _ => true | _ => false end.

(** The number of transfer invocations in a trace. *)
Definition transfers (t : list event) : nat :=
  List.length
    (filter (fun ev => match ev with call_system _ => true | _ => false end) t).

(** *** The routine of the specification

    [get] is written after the component design of the specification, to
    compare the accessors with: one routine with the URL of the product as
    its parameter, which derives the local path from the URL, obtains the
    file through [download_file] if it is not there, opens it, and applies
    the transform, in the four steps the specification lists. *)

(** The raw value that stands for no data. *)
Definition sentinel : cell := Fin 255.

(** What the specification says of one value: the sentinel becomes the
    missing-value marker; every other value is divided by 100 and clamped
    to the interval from 0 to 1. *)
Definition transform_cell (v : cell) : cell :=
  if cell_eqb v sentinel then NaN
  else cell_clip (cell_div v 100) 0 1.

(** Whether a value is the one its raster declares as missing. *)
Definition declared_missing (raw : Raster Geometry) (v : cell) : bool :=
  match nodata raw with
  | Some n => cell_eqb v n
  | None => false
  end.

(** What an accessor makes of one value of the opened raster: the declared
    missing value becomes the marker too. *)
Definition returned_cell (raw : Raster Geometry) (v : cell) : cell :=
  if declared_missing raw v then NaN else transform_cell v.

(** The transform of a raster, with the operations of the raster package:
    replace the sentinel by the marker, declare the marker as the missing
    value, divide by 100, clamp to the interval from 0 to 1. *)
Definition transform (raw : Raster Geometry) : Image Geometry :=
  let replaced := rt_where (raster_eq raw sentinel) NaN raw in
  let declared := set_nodata replaced NaN in
  let divided := raster_truediv declared 100 in
  rt_clip divided 0 1.

(** If the local path does not exist, the fetcher is invoked to obtain
    it. *)
Definition obtain (URL target_path : string) : M unit :=
  fun s =>
    if exists_ (os s) target_path then (s, inr tt)
    else match download_file URL target_path s with
         | (s', inr _) => (s', inr tt)
         | (s', inl e) => (s', inl e)
         end.

(** Resolve the resampling and the local path, obtain the file, open it
    in the geometry asked for, transform, return. *)
Definition get (URL : string) (geometry : option Geometry)
    (resampling : option string) : M (Image Geometry) :=
  fun s =>
    let r := effective_resampling (self s) resampling in
    let path := join (source_directory (self s)) (basename URL) in
    match obtain URL path s with
    | (s1, inl e) => (s1, inl e)
    | (s1, inr _) =>
        let s2 := record (call_open path geometry r) s1 in
        match Raster_open (files (os s1)) path geometry r with
        | inl msg => (s2, inl (RasterError msg))
        | inr raw => (s2, inr (transform raw))
        end
    end.

End WithCollaborators.

Arguments call_makedirs {Geometry} _.
Arguments call_system {Geometry} _.
Arguments call_move {Geometry} _ _.
Arguments call_open {Geometry} _ _ _.
Arguments mkProgState {Geometry} _ _ _ _.
Arguments self {Geometry} _.
Arguments os {Geometry} _.
Arguments log {Geometry} _.
Arguments trace {Geometry} _.
Arguments transfers {Geometry} _.
Arguments is_open {Geometry} _.
Arguments add_log {Geometry} _ _.
Arguments transform {Geometry} _.
Arguments declared_missing {Geometry} _ _.
Arguments returned_cell {Geometry} _ _.

End Program.

(** ** Cell values in binary64

    The same operations on the double-precision floats of NumPy, to check
    the exact model against on the values a grid file holds, the bytes 0 to
    255. *)

Module Binary64.
Import Numeric Program.

Definition float : Set := PrimFloat.float.

(** An integer as a double; exact for the small integers used here. *)
Definition of_Z (z : Z) : float :=
  if (z <? 0)%Z then PrimFloat.opp (PrimFloat.of_uint63 (Uint63.of_Z (- z)))
  else PrimFloat.of_uint63 (Uint63.of_Z z).

Definition nan : float := PrimFloat.div (of_Z 0) (of_Z 0).

(** [np.where(v == 255, np.nan, v)]. *)
Definition where_255 (v : float) : float :=
  if PrimFloat.eqb v (of_Z 255) then nan else v.

(** [np.clip(x, lo, hi)], as [minimum(maximum(x, lo), hi)]; a comparison
    with not-a-number is false, which hands it through. *)
Definition clip (x lo hi : float) : float :=
  let m := if PrimFloat.ltb x lo then lo else x in
  if PrimFloat.ltb hi m then hi else m.

Definition transform_float (v : float) : float :=
  clip (PrimFloat.div (where_255 v) (of_Z 100)) (of_Z 0) (of_Z 1).

(** The double nearest to a cell of the exact model: the rounded quotient
    of numerator and denominator. *)
Definition round (c : cell) : float :=
  match c with
  | NaN => nan
  | PosInf => PrimFloat.div (of_Z 1) (of_Z 0)
  | NegInf => PrimFloat.div (of_Z (-1)) (of_Z 0)
  | Fin q => PrimFloat.div (of_Z (Qnum q)) (of_Z (Zpos (Qden q)))
  end.

(** Bitwise equality of doubles, all not-a-numbers being one. *)
Definition same (x y : float) : bool := PrimFloat.Leibniz.eqb x y.

(** What the value transform does to the byte [n], in binary64: the
    sentinel goes to not-a-number, a byte up to 100 to the rounded quotient
    by 100, which the clamp leaves alone, every other byte to 1; and this is
    the rounding of what the exact model gives. *)
Definition byte_check (n : Z) : bool :=
  let out := transform_float (of_Z n) in
  (if (n =? 255)%Z then PrimFloat.is_nan out
   else if (n <=? 100)%Z then same out (PrimFloat.div (of_Z n) (of_Z 100))
   else same out (of_Z 1))
  && same out (round (transform_cell (Fin (inject_Z n)))).

End Binary64.

(** ** A small world to run the module in

    A transfer tool that fetches from a table of URLs, and a raster reader
    that takes each byte of a file as one cell of a single row. *)

Module Example.
Import PyStr PosixPath Numeric Rasters OS Program.

Definition env : Env :=
  {| getcwd := "/home/user/project";
     environ_HOME := Some "/home/user";
     getpwuid_dir := Some "/home/user";
     getpwnam_dir := fun _ => None |}.

(** [s.split(c)]. *)
Fixpoint split_on (c : ascii) (s : string) : list string :=
  match s with
  | EmptyString => [EmptyString]
  | String a r =>
      if Ascii.eqb a c then EmptyString :: split_on c r
      else match split_on c r with
           | h :: t => String a h :: t
           | [] => [String a EmptyString]
           end
  end.

(** The bytes 0, 50, 100, 180 and 255. *)
Definition grid_bytes : string :=
  string_of_list_ascii (map ascii_of_nat [0; 50; 100; 180; 255]%nat).

Definition network (URL : string) : option string :=
  if String.eqb URL FC_URL then Some grid_bytes else None.

(** The transfer tool: it writes what the network has for the URL to the
    path after [-O], and writes nothing when the network has nothing. *)
Definition wget (command : string) (st : OS.state) : Z * OS.state :=
  match split_on (ascii_of_nat 34) command with
  | [_; out; _; URL; _] =>
      match network URL with
      | Some bytes =>
          (0%Z,
           mkState (fun p => if String.eqb p out then Some (File bytes)
                             else files st p)
                   (clock st + 3))
      | None => (4%Z, mkState (files st) (clock st + 1))
      end
  | _ => (2%Z, st)
  end.

Definition open_bytes (f : string -> option node) (filename : string)
    (geometry : option unit) (resampling : string) : string + Raster unit :=
  match f filename with
  | Some (File bytes) =>
      inr (mkRaster
             [map (fun a => Fin (inject_Z (Z.of_nat (nat_of_ascii a))))
                  (list_ascii_of_string bytes)]
             tt (Some (Fin 255)))
  | _ => inl "not a raster file"
  end.

(** A fresh instance on an empty file system. *)
Definition fresh : State unit :=
  mkProgState (__init__ env (Some "/tmp/wd") None DEFAULT_RESAMPLING)
    (mkState (fun _ => None) 0) [] [].

(** The run of [FC] on it: the grid is fetched, moved into place, opened
    and transformed. *)
Definition first_run : State unit * (exn + Image unit) :=
  FC unit wget open_bytes None None fresh.

Definition fc_file : string := FC_filename (self fresh).
Definition wp_file : string := WP_filename (self fresh).

Definition raw_grid : Raster unit :=
  mkRaster [[Fin 0; Fin 50; Fin 100; Fin 180; Fin 255]] tt (Some (Fin 255)).

Definition out_grid : Image unit :=
  as_raster
    (mkRaster [[Fin (0 / 100); Fin (50 / 100); Fin (100 / 100); Fin 1; NaN]]
       tt (Some NaN)).

(** The file system after the download directory has been made, and after
    the transfer tool has run for either product. *)
Definition after_makedirs : OS.state :=
  set_files (os fresh)
    (fun p =>
       if mem p ["/tmp/wd/SoilGrids_download"; "/tmp/wd"; "/tmp"]
       then Some Dir else files (os fresh) p).

Definition after_wget_FC : OS.state :=
  mkState
    (fun p => if String.eqb p (fc_file ++ ".download")
              then Some (File grid_bytes) else files after_makedirs p)
    (clock after_makedirs + 3).

Definition after_wget_WP : OS.state :=
  mkState (files after_makedirs) (clock after_makedirs + 1).

(** The same instance with a regular file where its download directory
    should be. *)
Definition blocked : State unit :=
  mkProgState (self fresh)
    (mkState
       (fun p =>
          if mem p ["/tmp/wd"; "/tmp"] then Some Dir
          else if String.eqb p "/tmp/wd/SoilGrids_download"
               then Some (File "notes")
               else None)
       0)
    [] [].

(** The same instance with a directory under the name of the
    field-capacity file, which [open_bytes] refuses. *)
Definition unreadable : State unit :=
  mkProgState (self fresh)
    (set_files after_makedirs
       (fun p => if String.eqb p fc_file then Some Dir
                 else files after_makedirs p))
    [] [].

(** A reader whose cells are not bytes: one below 0 and one above 255. *)
Definition wide_grid : Raster unit :=
  mkRaster [[Fin (-5 # 1); Fin (300 # 1)]] tt (Some (Fin 255)).

Definition open_wide (f : string -> option node) (filename : string)
    (geometry : option unit) (resampling : string) : string + Raster unit :=
  match f filename with
  | Some (File _) => inr wide_grid
  | _ => inl "not a raster file"
  end.

Definition wide_run : State unit * (exn + Image unit) :=
  FC unit wget open_wide None None fresh.

Definition wide_out : Image unit :=
  as_raster (mkRaster [[Fin 0; Fin 1]] tt (Some NaN)).

(** The runs of [download_file] for the two products on the fresh
    instance, and the run of [FC] on the unreadable file. *)
Definition fc_download : State unit * (exn + string) :=
  download_file unit wget FC_URL fc_file fresh.

Definition wp_download : State unit * (exn + string) :=
  download_file unit wget WP_URL wp_file fresh.

Definition unreadable_run : State unit * (exn + Image unit) :=
  FC unit wget open_bytes None None unreadable.

(** An instance with a home-relative working directory and the default
    source directory. *)
Definition home_instance : SoilGrids :=
  __init__ env (Some "~/soil/../grids") None DEFAULT_RESAMPLING.

(** A reader that makes the raster [raw] of any regular file. *)
Definition open_as (raw : Raster unit) (f : string -> option node)
    (filename : string) (geometry : option unit) (resampling : string)
    : string + Raster unit :=
  match f filename with
  | Some (File _) => inr raw
  | _ => inl "not a raster file"
  end.

(** A grid that declares 50 as its missing value and holds a 50, and one
    that declares 180 and holds a 180. *)
Definition marked_low : Raster unit :=
  mkRaster [[Fin 50; Fin 60]] tt (Some (Fin 50)).

Definition marked_high : Raster unit :=
  mkRaster [[Fin 180; Fin 120]] tt (Some (Fin 180)).

(** A grid of one cell, which holds the sentinel. *)
Definition single_grid : Raster unit :=
  mkRaster [[Fin 255]] tt (Some (Fin 255)).

(** A grid that declares no missing value. *)
Definition undeclared_grid : Raster unit :=
  mkRaster [[Fin 0; Fin 255]] tt None.

(** The runs of [FC] with these grids behind the file, and what they
    return. *)
Definition marked_low_run : State unit * (exn + Image unit) :=
  FC unit wget (open_as marked_low) None None fresh.

Definition marked_low_out : Image unit :=
  as_raster (mkRaster [[NaN; Fin (60 / 100)]] tt (Some NaN)).

Definition marked_high_run : State unit * (exn + Image unit) :=
  FC unit wget (open_as marked_high) None None fresh.

Definition marked_high_out : Image unit :=
  as_raster (mkRaster [[NaN; Fin 1]] tt (Some NaN)).

Definition single_run : State unit * (exn + Image unit) :=
  FC unit wget (open_as single_grid) None None fresh.

Definition single_out : Image unit := as_ndarray [[NaN]].

Definition undeclared_run : State unit * (exn + Image unit) :=
  FC unit wget (open_as undeclared_grid) None None fresh.

Definition undeclared_out : Image unit :=
  as_raster (mkRaster [[Fin (0 / 100); NaN]] tt (Some NaN)).

End Example.

(** * Properties *)

(** ** Strings and paths *)

Module PathFacts.
Import PyStr PosixPath.
Local Open Scope nat_scope.

Lemma append_empty_r (s : string) : s ++ "" = s.
Proof.
  induction s as [|c s IH]; simpl; [reflexivity | now rewrite IH].
Qed.

Lemma append_assoc (a b c : string) : (a ++ b) ++ c = a ++ (b ++ c).
Proof.
  induction a as [|x a IH]; simpl; [reflexivity | now rewrite IH].
Qed.

Lemma length_append (a b : string) :
  String.length (a ++ b) = String.length a + String.length b.
Proof.
  induction a as [|x a IH]; simpl; [reflexivity | now rewrite IH].
Qed.

Lemma length_zero (s : string) : String.length s = 0 -> s = "".
Proof. destruct s; [reflexivity | discriminate]. Qed.

Lemma append_inv_head (a b c : string) : a ++ b = a ++ c -> b = c.
Proof.
  induction a as [|x a IH]; simpl; intros H; [exact H|].
  injection H as H. now apply IH.
Qed.

(** The two parts of [rsplit_slash] make up the string. *)
Lemma rsplit_slash_append (s : string) :
  fst (rsplit_slash s) ++ snd (rsplit_slash s) = s.
Proof.
  induction s as [|c s IH]; simpl; [reflexivity|].
  destruct (rsplit_slash s) as [h t]; simpl in IH.
  destruct (is_slash c); simpl.
  - now rewrite IH.
  - destruct h as [|x h]; simpl in *; now rewrite IH.
Qed.

Lemma rsplit_slash_tail_empty (s : string) :
  snd (rsplit_slash s) = "" -> s <> "" -> endswith_slash s = true.
Proof.
  induction s as [|c s IH]; simpl; intros Ht Hs; [congruence|].
  destruct (rsplit_slash s) as [h t] eqn:E; simpl in *.
  destruct (is_slash c) eqn:Ec; simpl in Ht.
  - destruct s as [|x s]; [reflexivity|]. apply IH; [exact Ht | discriminate].
  - destruct h as [|y h]; simpl in Ht; [discriminate|].
    destruct s as [|x s]; [simpl in E; discriminate|].
    apply IH; [exact Ht | discriminate].
Qed.

(** A part without slash, appended, goes to the tail. *)
Lemma rsplit_slash_append_tail (f t : string) :
  rsplit_slash t = ("", t) ->
  rsplit_slash (f ++ t) = (fst (rsplit_slash f), snd (rsplit_slash f) ++ t).
Proof.
  intros Ht. induction f as [|c f IH]; simpl; [now rewrite Ht|].
  rewrite IH. destruct (rsplit_slash f) as [h u]; simpl.
  destruct (is_slash c); [reflexivity|].
  destruct h; reflexivity.
Qed.

Lemma rstrip_slash_length (s : string) :
  String.length (rstrip_slash s) <= String.length s.
Proof.
  induction s as [|c s IH]; simpl; [lia|].
  destruct (rstrip_slash s) as [|x r]; simpl in *.
  - destruct (is_slash c); simpl; lia.
  - lia.
Qed.

Lemma rstrip_slash_shorter (s : string) :
  endswith_slash s = true ->
  String.length (rstrip_slash s) < String.length s.
Proof.
  induction s as [|c s IH]; simpl; [discriminate|].
  intros H. destruct s as [|x s].
  - simpl. rewrite H. simpl. lia.
  - specialize (IH H).
    destruct (rstrip_slash (String x s)) as [|y r]; simpl in *.
    + destruct (is_slash c); simpl; lia.
    + lia.
Qed.

(** A string that ends in another character is left as it is. *)
Lemma rstrip_slash_append_fixed (f t : string) :
  rstrip_slash t = t -> t <> "" -> rstrip_slash (f ++ t) = f ++ t.
Proof.
  intros Ht Hne. induction f as [|c f IH]; simpl; [exact Ht|].
  rewrite IH. destruct (f ++ t) as [|x r] eqn:E; [|reflexivity].
  destruct f; simpl in E; [congruence | discriminate].
Qed.

Lemma dirname_length (p : string) :
  String.length (dirname p) <= String.length p.
Proof.
  unfold dirname.
  pose proof (rsplit_slash_append p) as H.
  pose proof (rstrip_slash_length (fst (rsplit_slash p))) as Hr.
  assert (String.length (fst (rsplit_slash p)) <= String.length p) as Hh.
  { rewrite <- H at 2. rewrite length_append. lia. }
  destruct (negb _ && negb _); lia.
Qed.

Lemma dirname_shorter (p : string) :
  p <> "" -> all_slashes p = false ->
  String.length (dirname p) < String.length p.
Proof.
  intros Hne Hall. unfold dirname.
  pose proof (rsplit_slash_append p) as H.
  pose proof (rstrip_slash_length (fst (rsplit_slash p))) as Hr.
  destruct (snd (rsplit_slash p)) as [|c t] eqn:Et.
  - rewrite append_empty_r in H.
    pose proof (rsplit_slash_tail_empty p Et Hne) as He.
    rewrite H, Hall.
    destruct (String.eqb_spec p "") as [->|_]; [congruence|]. simpl.
    now apply rstrip_slash_shorter.
  - assert (String.length (fst (rsplit_slash p)) < String.length p) as Hh.
    { rewrite <- H at 2. rewrite length_append. simpl. lia. }
    destruct (negb _ && negb _); lia.
Qed.

End PathFacts.

(** ** The file system *)

Module OSFacts.
Import PyStr PosixPath OS PathFacts.
Local Open Scope nat_scope.

Lemma startswith_slash (x : string) :
  startswith x "/" = match x with
                     | EmptyString => false
                     | String b _ => is_slash b
                     end.
Proof.
  destruct x as [|b x]; [reflexivity|].
  unfold startswith, is_slash, slash.
  change (String.prefix "/" (String b x))
    with (if ascii_dec "/"%char b then String.prefix "" x else false).
  destruct (ascii_dec "/"%char b) as [<-|Hne].
  - destruct x; reflexivity.
  - symmetry. apply Ascii.eqb_neq. congruence.
Qed.

Lemma strip_under_sound (d k s : string) :
  strip_under d k = Some s -> k = d ++ s.
Proof.
  revert k. induction d as [|a d IH]; intros [|b k]; simpl; try discriminate.
  - now intros [= <-].
  - destruct (is_slash b); [now intros [= <-] | discriminate].
  - destruct (Ascii.eqb_spec a b) as [->|_]; [|discriminate].
    intros H. now rewrite (IH _ H).
Qed.

Lemma strip_under_short (d k : string) :
  String.length k < String.length d -> strip_under d k = None.
Proof.
  intros Hlt. destruct (strip_under d k) as [s|] eqn:E; [|reflexivity].
  apply strip_under_sound in E. subst k. rewrite length_append in Hlt. lia.
Qed.

Lemma strip_under_common (f x y : string) :
  strip_under (f ++ x) (f ++ y) = strip_under x y.
Proof.
  induction f as [|c f IH]; simpl; [reflexivity|].
  now rewrite Ascii.eqb_refl.
Qed.

Lemma strip_under_append (d s : string) :
  strip_under d (d ++ s) = strip_under "" s.
Proof.
  rewrite <- (append_empty_r d) at 1. apply strip_under_common.
Qed.

Lemma strip_under_self (d : string) : strip_under d d = Some "".
Proof.
  rewrite <- (append_empty_r d) at 2. now rewrite strip_under_append.
Qed.

Lemma under_short (d k : string) :
  String.length k < String.length d -> under d k = false.
Proof. intros H. unfold under. now rewrite strip_under_short. Qed.

Lemma under_self (d : string) : under d d = true.
Proof. unfold under. now rewrite strip_under_self. Qed.

(** The test [a =? b] of two strings that differ. *)
Lemma eqb_differ (a b : string) : a <> b -> String.eqb a b = false.
Proof. apply String.eqb_neq. Qed.

(** [stat] reads the name it is asked for, and no other. *)
Lemma stat_files (st st' : state) (p : string) :
  files st' p = files st p -> stat st' p = stat st p.
Proof. unfold stat. now intros ->. Qed.

Lemma stat_set_files (st : state) (f : string -> option node) (p : string) :
  stat (set_files st f) p =
  if String.eqb p "" then None else if all_slashes p then Some Dir else f p.
Proof. reflexivity. Qed.

Lemma exists_absent (st : state) (p : string) :
  exists_ st p = false ->
  stat st p = None /\ (p <> "" -> all_slashes p = false /\ files st p = None).
Proof.
  unfold exists_, stat.
  destruct (String.eqb_spec p "") as [->|Hne]; [intuition congruence|].
  destruct (all_slashes p); [discriminate|].
  destruct (files st p); [discriminate | intuition].
Qed.

(** *** [makedirs] *)

Lemma missing_dirs_length (n : nat) (st : state) (c d : string)
    (l : list string) :
  missing_dirs n st c d = inr l ->
  Forall (fun k => String.length k <= String.length d) l.
Proof.
  revert c d l. induction n as [|n IH]; intros c d l; simpl.
  - intros [= <-]. constructor.
  - destruct (String.eqb d ""); [intros [= <-]; constructor|].
    destruct (stat st d) as [[x|]|]; try discriminate.
    + intros [= <-]. constructor.
    + destruct (missing_dirs n st d (dirname d)) as [e|l'] eqn:E;
        [discriminate|].
      intros [= <-]. constructor; [lia|].
      pose proof (dirname_length d) as Hd.
      eapply Forall_impl; [|exact (IH _ _ _ E)].
      simpl. intros k Hk. lia.
Qed.

Lemma mem_longer (p : string) (n : nat) (l : list string) :
  Forall (fun k => String.length k <= n) l ->
  n < String.length p -> mem p l = false.
Proof.
  intros Hall Hlt. induction Hall as [|k l Hk _ IH]; [reflexivity|].
  simpl. rewrite IH, orb_false_r.
  apply String.eqb_neq. intros ->. lia.
Qed.

(** More fuel than the name is long changes nothing. *)
Lemma missing_dirs_fuel (n m : nat) (st : state) (c d : string) :
  String.length d < n -> String.length d < m ->
  missing_dirs n st c d = missing_dirs m st c d.
Proof.
  revert m c d. induction n as [|n IH]; intros [|m] c d Hn Hm; try lia.
  simpl. destruct (String.eqb_spec d "") as [->|Hne]; [reflexivity|].
  unfold stat. rewrite (eqb_differ d "" Hne).
  destruct (all_slashes d) eqn:Ha; [reflexivity|].
  destruct (files st d) as [[x|]|]; try reflexivity.
  pose proof (dirname_shorter d Hne Ha) as Hs.
  rewrite (IH m d (dirname d)) by lia. reflexivity.
Qed.

(** After [makedirs] the directory is there. *)
Lemma makedirs_isdir (d : string) (st st' : state) :
  makedirs d st = inr st' -> stat st' d = Some Dir.
Proof.
  unfold makedirs. destruct (String.eqb_spec d "") as [->|Hne]; [discriminate|].
  destruct (stat st d) as [[c|]|] eqn:Es; [discriminate| |].
  - simpl. rewrite (eqb_differ d "" Hne), Es.
    intros [= <-]. rewrite stat_set_files. simpl.
    rewrite (eqb_differ d "" Hne).
    unfold stat in Es. rewrite (eqb_differ d "" Hne) in Es.
    destruct (all_slashes d); [reflexivity | exact Es].
  - simpl. rewrite (eqb_differ d "" Hne), Es.
    destruct (missing_dirs (String.length d) st d (dirname d));
      [discriminate|].
    intros [= <-]. rewrite stat_set_files. simpl.
    rewrite (eqb_differ d "" Hne), String.eqb_refl. simpl.
    destruct (all_slashes d); reflexivity.
Qed.

(** [makedirs] leaves every longer name as it was. *)
Lemma makedirs_frame (d : string) (st st' : state) (p : string) :
  makedirs d st = inr st' -> String.length d < String.length p ->
  files st' p = files st p.
Proof.
  unfold makedirs. destruct (String.eqb d ""); [discriminate|].
  intros H Hlt.
  assert (forall l, missing_dirs (S (String.length d)) st d d = inr l ->
                    mem p l = false) as Hmem.
  { intros l Hl. apply (mem_longer p (String.length d)); [|exact Hlt].
    exact (missing_dirs_length _ _ _ _ _ Hl). }
  destruct (stat st d) as [[c|]|]; [discriminate| |];
    destruct (missing_dirs (S (String.length d)) st d d) as [e|l] eqn:E;
    try discriminate; injection H as <-; simpl; now rewrite (Hmem l eq_refl).
Qed.

Lemma makedirs_clock (d : string) (st st' : state) :
  makedirs d st = inr st' -> clock st' = clock st.
Proof.
  unfold makedirs. destruct (String.eqb d ""); [discriminate|].
  destruct (stat st d) as [[c|]|]; [discriminate| |];
    destruct (missing_dirs _ st d d); try discriminate; now intros [= <-].
Qed.

(** *** Moving the downloaded file into place *)

Lemma download_name_not_root (f : string) :
  all_slashes (f ++ ".download") = false.
Proof.
  induction f as [|c f IH]; simpl; [reflexivity|].
  rewrite IH. apply andb_false_r.
Qed.

Lemma download_name_nonempty (f : string) : f ++ ".download" <> "".
Proof. destruct f; discriminate. Qed.

Lemma download_name_longer (f : string) :
  String.length f < String.length (f ++ ".download").
Proof. rewrite length_append. simpl. lia. Qed.

Lemma download_name_neq (f : string) : f ++ ".download" <> f.
Proof.
  intros H. pose proof (download_name_longer f) as Hl. rewrite H in Hl. lia.
Qed.

Lemma stat_download_name (st : state) (f : string) :
  stat st (f ++ ".download") = files st (f ++ ".download").
Proof.
  unfold stat. rewrite download_name_not_root.
  now rewrite (eqb_differ _ _ (download_name_nonempty f)).
Qed.

Lemma tail_no_leading_slash (s : string) :
  match snd (rsplit_slash s) with
  | EmptyString => True
  | String c _ => is_slash c = false
  end.
Proof.
  induction s as [|c s IH]; simpl; [exact I|].
  destruct (rsplit_slash s) as [h t]; simpl in *.
  destruct (is_slash c) eqn:Ec; simpl; [exact IH|].
  destruct h; simpl; [exact Ec | exact IH].
Qed.

Lemma endswith_slash_tail (s : string) :
  endswith_slash s = true -> snd (rsplit_slash s) = "".
Proof.
  induction s as [|c s IH]; simpl; [discriminate|].
  destruct s as [|x s].
  - intros ->. reflexivity.
  - intros H. specialize (IH H).
    pose proof (rsplit_slash_append (String x s)) as Happ.
    destruct (rsplit_slash (String x s)) as [h t]; simpl in *. subst t.
    destruct (is_slash c); [reflexivity|].
    destruct h; [discriminate | reflexivity].
Qed.

Lemma basename_download_name (f : string) :
  basename (rstrip_slash (f ++ ".download")) = basename f ++ ".download".
Proof.
  rewrite rstrip_slash_append_fixed by (reflexivity || discriminate).
  unfold basename. now rewrite rsplit_slash_append_tail.
Qed.

Lemma rename_inr (src dst : string) (st st' : state) :
  rename src dst st = inr st' ->
  st' = set_files st (rename_tree src dst (files st))
  /\ stat st src <> None /\ check_parent st dst = None.
Proof.
  unfold rename. destruct (stat st src) as [n|]; [|discriminate].
  destruct (check_parent st dst); [discriminate|].
  intros H. split; [|split; congruence].
  destruct n, (stat st dst) as [[c'|]|]; try discriminate;
    try (now injection H as <-).
  destruct (under src dst); [discriminate | now injection H as <-].
Qed.

(** A move of [f.download] to [f] that succeeds leaves [f] there and
    [f.download] gone, also when [f] has become a directory meanwhile. *)
Lemma move_download (f : string) (st st' : state) :
  move (f ++ ".download") f st = inr st' ->
  exists_ st' f = true /\ exists_ st' (f ++ ".download") = false.
Proof.
  unfold move.
  rewrite (eqb_differ _ _ (download_name_neq f)).
  destruct (isdir st f) eqn:Edir.
  - rewrite basename_download_name.
    set (b := basename f ++ ".download").
    destruct (exists_ st (join f b)) eqn:Ex; [discriminate|].
    intros H. apply rename_inr in H as (-> & Hsrc & _).
    rewrite stat_download_name in Hsrc.
    assert (f <> "") as Hf.
    { intros ->. unfold isdir, stat in Edir. simpl in Edir. discriminate. }
    assert (startswith b "/" = false) as Hb.
    { rewrite startswith_slash. unfold b, basename.
      pose proof (tail_no_leading_slash f) as Ht.
      destruct (snd (rsplit_slash f)); [reflexivity | exact Ht]. }
    assert (join f b = f ++ "/" ++ b) as Hj.
    { unfold join. rewrite Hb.
      rewrite (eqb_differ _ _ Hf). simpl.
      destruct (endswith_slash f) eqn:Ee; [|reflexivity].
      exfalso. unfold join in Ex. rewrite Hb, Ee, orb_true_r in Ex.
      unfold b, basename in Ex. rewrite (endswith_slash_tail f Ee) in Ex.
      simpl in Ex. unfold exists_ in Ex. rewrite stat_download_name in Ex.
      destruct (files st (f ++ ".download")); congruence. }
    rewrite Hj. unfold exists_. rewrite !stat_set_files.
    rewrite (eqb_differ _ _ Hf).
    rewrite (eqb_differ _ _ (download_name_nonempty f)).
    rewrite download_name_not_root.
    unfold rename_tree.
    rewrite (strip_under_short (f ++ "/" ++ b) f)
      by (rewrite length_append; simpl; lia).
    rewrite (under_short (f ++ ".download") f) by apply download_name_longer.
    rewrite strip_under_common. simpl. rewrite under_self.
    split; [|reflexivity].
    unfold isdir, stat in Edir.
    rewrite (eqb_differ _ _ Hf) in Edir.
    destruct (all_slashes f); [reflexivity|].
    destruct (files st f) as [[c|]|]; congruence.
  - intros H. apply rename_inr in H as (-> & Hsrc & Hpar).
    rewrite stat_download_name in Hsrc.
    assert (f <> "") as Hf.
    { intros ->. unfold check_parent in Hpar. simpl in Hpar. discriminate. }
    unfold exists_. rewrite !stat_set_files.
    rewrite (eqb_differ _ _ Hf).
    rewrite (eqb_differ _ _ (download_name_nonempty f)).
    rewrite download_name_not_root.
    unfold rename_tree.
    rewrite strip_under_self, strip_under_append. simpl.
    rewrite under_self, append_empty_r.
    split; [|reflexivity].
    destruct (all_slashes f); [reflexivity|].
    destruct (files st (f ++ ".download")); congruence.
Qed.

(** With the target absent and its directory there, the move goes
    through. *)
Lemma move_download_succeeds (f : string) (st : state) :
  stat st f = None -> check_parent st f = None ->
  exists_ st (f ++ ".download") = true ->
  exists st', move (f ++ ".download") f st = inr st'.
Proof.
  intros Hf Hpar Hex. unfold move, isdir. rewrite Hf.
  unfold rename. rewrite Hpar, Hf.
  unfold exists_ in Hex.
  destruct (stat st (f ++ ".download")) as [[c|]|]; [| |discriminate].
  - eexists. reflexivity.
  - rewrite under_short by apply download_name_longer.
    eexists. reflexivity.
Qed.

End OSFacts.

(** ** Absolute paths *)

Module AbsFacts.
Import PyStr PosixPath PathFacts OSFacts.

Lemma isabs_head (s : string) :
  isabs s = match s with
            | EmptyString => false
            | String b _ => is_slash b
            end.
Proof. apply startswith_slash. Qed.

Lemma isabs_append (a b : string) : isabs a = true -> isabs (a ++ b) = true.
Proof.
  rewrite !isabs_head. destruct a as [|c a]; [discriminate|]. simpl. auto.
Qed.

Lemma normpath_isabs (path : string) :
  isabs path = true -> isabs (normpath path) = true.
Proof.
  intros H. unfold normpath.
  destruct (String.eqb_spec path "") as [->|_]; [discriminate|].
  unfold isabs in H. rewrite H.
  destruct (startswith path "//" && negb (startswith path "///"));
    simpl; rewrite isabs_head; reflexivity.
Qed.

Lemma join_isabs (a b : string) : isabs a = true -> isabs (join a b) = true.
Proof.
  intros H. unfold join.
  destruct (startswith b "/") eqn:Eb; [exact Eb|].
  destruct (String.eqb a "" || endswith_slash a); now apply isabs_append.
Qed.

(** In a working directory that is absolute, [abspath] gives absolute
    paths. *)
Lemma abspath_isabs (env : Env) (path : string) :
  isabs (getcwd env) = true -> isabs (abspath env path) = true.
Proof.
  intros Hcwd. unfold abspath. apply normpath_isabs.
  destruct (isabs path) eqn:E; simpl; [exact E | now apply join_isabs].
Qed.

End AbsFacts.

(** ** Cell arithmetic *)

Module NumericFacts.
Import Numeric.
Local Open Scope Q_scope.

Lemma Qltb_false (x y : Q) : y <= x -> Qltb x y = false.
Proof.
  intros H. unfold Qltb. apply negb_false_iff. now apply Qle_bool_iff.
Qed.

Lemma Qltb_true (x y : Q) : x < y -> Qltb x y = true.
Proof.
  intros H. unfold Qltb. apply negb_true_iff.
  destruct (Qle_bool y x) eqn:E; [|reflexivity].
  apply Qle_bool_iff in E. lra.
Qed.

Lemma Qeq_bool_false (x y : Q) : ~ x == y -> Qeq_bool x y = false.
Proof.
  intros H. destruct (Qeq_bool x y) eqn:E; [|reflexivity].
  apply Qeq_bool_eq in E. contradiction.
Qed.

Lemma div_hundred_bounds (v : Q) :
  (0 <= v -> 0 <= v / 100) /\ (v <= 100 -> v / 100 <= 1)
  /\ (100 < v -> 1 < v / 100).
Proof.
  repeat split; intros H.
  - apply Qle_shift_div_l; lra.
  - apply Qle_shift_div_r; lra.
  - apply Qlt_shift_div_l; lra.
Qed.

(** Division of a number by 100 is a number. *)
Lemma cell_div_hundred (v : Q) : cell_div (Fin v) 100 = Fin (v / 100).
Proof. reflexivity. Qed.

(** The clamp leaves what lies in the interval as it is. *)
Lemma cell_clip_inside (x lo hi : Q) :
  lo <= x -> x <= hi -> cell_clip (Fin x) lo hi = Fin x.
Proof.
  intros Hlo Hhi. unfold cell_clip, cell_maximum.
  rewrite (Qltb_false x lo Hlo). unfold cell_minimum.
  now rewrite (Qltb_false hi x Hhi).
Qed.

Lemma cell_clip_above (x lo hi : Q) :
  lo <= x -> hi < x -> cell_clip (Fin x) lo hi = Fin hi.
Proof.
  intros Hlo Hhi. unfold cell_clip, cell_maximum.
  rewrite (Qltb_false x lo Hlo). unfold cell_minimum.
  now rewrite (Qltb_true hi x Hhi).
Qed.

Lemma cell_clip_below (x lo hi : Q) :
  x < lo -> lo <= hi -> cell_clip (Fin x) lo hi = Fin lo.
Proof.
  intros Hlo Hhi. unfold cell_clip, cell_maximum.
  rewrite (Qltb_true x lo Hlo). unfold cell_minimum.
  now rewrite (Qltb_false hi lo Hhi).
Qed.

End NumericFacts.

(** ** The exact model against binary64 *)

Module Binary64Facts.
Import Numeric Program Binary64.

Lemma bytes_checked :
  forallb byte_check (map Z.of_nat (seq 0 256)) = true.
Proof. vm_compute. reflexivity. Qed.

Lemma byte_check_all (n : Z) : (0 <= n <= 255)%Z -> byte_check n = true.
Proof.
  intros Hn. pose proof bytes_checked as H.
  rewrite forallb_forall in H. apply H.
  rewrite <- (Z2Nat.id n) by lia. apply in_map. apply in_seq. lia.
Qed.

End Binary64Facts.

(** ** The program *)

Module ProgramFacts.
Import PyStr PosixPath Numeric Rasters OS Program PathFacts OSFacts.

Section WithCollaborators.

Variable Geometry : Type.
Variable system : string -> OS.state -> Z * OS.state.
Variable Raster_open :
  (string -> option node) -> string -> option Geometry -> string ->
  string + Raster Geometry.

Local Abbreviation State := (State Geometry).
Local Abbreviation download_file := (download_file Geometry system).
Local Abbreviation accessor := (accessor Geometry system Raster_open).
Local Abbreviation get := (get Geometry system Raster_open).

(** The run of [download_file], step by step. *)
Lemma download_file_unfold (URL f : string) (s : State) :
  download_file URL f s =
  if exists_ (os s) f then (add_log (file_already_downloaded f) s, inr f)
  else
    let s0 := record _ (call_makedirs (dirname f))
                (add_log (downloading URL f) s) in
    match makedirs (dirname f) (os s) with
    | inl e => (s0, inl e)
    | inr o1 =>
        let cmd := wget_command (f ++ ".download") URL in
        let s1 := record _ (call_system cmd) (with_os _ s0 o1) in
        let o2 := snd (system cmd o1) in
        let s2 := add_log (completed_download (clock o2 - clock o1) f)
                    (with_os _ s1 o2) in
        if exists_ o2 (f ++ ".download") then
          let s3 := record _ (call_move (f ++ ".download") f) s2 in
          match move (f ++ ".download") f o2 with
          | inl e => (s3, inl e)
          | inr o3 => (with_os _ s3 o3, inr f)
          end
        else (s2, inl (IOError ("unable to download URL: " ++ URL)))
    end.
Proof.
  unfold Program.download_file, bind, path_exists, logger_info, os_makedirs,
    perf_counter, os_system, shutil_move, ret, raise.
  destruct (exists_ (os s) f); [reflexivity|]. simpl.
  destruct (makedirs (dirname f) (os s)) as [e|o1]; [reflexivity|]. simpl.
  destruct (system (wget_command (f ++ ".download") URL) o1) as [status o2].
  simpl.
  destruct (exists_ o2 (f ++ ".download")); [|reflexivity]. simpl.
  destruct (move (f ++ ".download") f o2); reflexivity.
Qed.

(** [download_file] does not touch the instance. *)
Lemma download_file_self (URL f : string) (s : State) :
  self (fst (download_file URL f s)) = self s.
Proof.
  rewrite download_file_unfold.
  destruct (exists_ (os s) f); [reflexivity|]. simpl.
  destruct (makedirs (dirname f) (os s)) as [e|o1]; [reflexivity|].
  destruct (exists_ _ (f ++ ".download")); [|reflexivity].
  destruct (move (f ++ ".download") f _); reflexivity.
Qed.

(** [download_file] adds calls to the trace, none of them an open. *)
Lemma download_file_trace (URL f : string) (s : State) :
  exists evs,
    trace (fst (download_file URL f s)) = (trace s ++ evs)%list
    /\ forallb (fun ev => negb (is_open ev)) evs = true.
Proof.
  rewrite download_file_unfold.
  destruct (exists_ (os s) f).
  { exists []. simpl. now rewrite app_nil_r. }
  simpl. destruct (makedirs (dirname f) (os s)) as [e|o1].
  { now exists [call_makedirs (dirname f)]. }
  destruct (exists_ _ (f ++ ".download")).
  - destruct (move (f ++ ".download") f _); simpl; rewrite <- !app_assoc;
      eexists; (split; [reflexivity|]); reflexivity.
  - simpl. rewrite <- !app_assoc. eexists. split; reflexivity.
Qed.

(** *** The value transform *)

Lemma zip_with_map_self {A B C : Type} (f : B -> A -> C) (g : A -> B)
    (l : list A) :
  zip_with f (map g l) l = map (fun v => f (g v) v) l.
Proof.
  induction l as [|a l IH]; simpl; [reflexivity | now rewrite IH].
Qed.

Lemma map_map2 {A B C : Type} (f : B -> C) (g : A -> B)
    (a : list (list A)) :
  map (map f) (map (map g) a) = map (map (fun v => f (g v))) a.
Proof. rewrite map_map. apply map_ext. intros row. apply map_map. Qed.

Lemma map_ext2 {A B : Type} (f g : A -> B) (a : list (list A)) :
  (forall v, f v = g v) -> map (map f) a = map (map g) a.
Proof. intros H. apply map_ext. intros row. now apply map_ext. Qed.

Lemma size_map (f : cell -> cell) (a : list (list cell)) :
  size (map (map f) a) = size a.
Proof. unfold size. rewrite <- concat_map. apply length_map. Qed.

(** Not-a-number as the declared missing value masks nothing. *)
Lemma mask_cell_nan (v : cell) : mask_cell (Some NaN) v = v.
Proof. destruct v; reflexivity. Qed.

Lemma where_eq_map (raw : Raster Geometry) (x y : cell) :
  zip_with (zip_with (fun c v => cell_where c x v)) (raster_eq raw y)
    (array raw)
  = map (map (fun v => cell_where (cell_eqb v y) x v)) (array raw).
Proof.
  unfold raster_eq. rewrite zip_with_map_self.
  apply map_ext. intros row. apply zip_with_map_self.
Qed.

(** The operations of an accessor at one cell. *)
Lemma cell_pipeline (raw : Raster Geometry) (v : cell) :
  cell_clip
    (cell_div
       (mask_cell (nodata raw) (cell_where (cell_eqb v sentinel) NaN v))
       100) 0 1
  = returned_cell raw v.
Proof.
  unfold returned_cell, declared_missing, transform_cell, mask_cell,
    cell_where.
  destruct (nodata raw) as [n|], (cell_eqb v sentinel); try reflexivity.
  - now destruct (cell_eqb NaN n), (cell_eqb v n).
  - now destruct (cell_eqb v n).
Qed.

(** The three raster statements of an accessor: one map over the cells, in
    a bare array for a raster of one cell and in a raster with the geometry
    of the opened one otherwise. *)
Lemma raster_pipeline (raw : Raster Geometry) :
  transform raw
  = if Nat.eqb (size (array raw)) 1
    then as_ndarray (map (map (returned_cell raw)) (array raw))
    else as_raster
           (mkRaster (map (map (returned_cell raw)) (array raw))
              (geometry raw) (Some NaN)).
Proof.
  unfold transform, raster_truediv, set_nodata, rt_where, Raster_init.
  cbn [array geometry nodata]. rewrite where_eq_map, map_map2.
  unfold contain at 1. cbn [array geometry nodata].
  rewrite map_map2, size_map.
  destruct (Nat.eqb (size (array raw)) 1) eqn:E.
  - cbn [rt_clip]. rewrite map_map2. f_equal.
    apply map_ext2. intros v. apply cell_pipeline.
  - cbn [rt_clip]. unfold contain, Raster_init. cbn [array geometry nodata].
    rewrite !map_map2, size_map, E. do 2 f_equal.
    apply map_ext2. intros v. rewrite !mask_cell_nan. apply cell_pipeline.
Qed.

Lemma cells_transform (raw : Raster Geometry) :
  cells (transform raw) = map (map (returned_cell raw)) (array raw).
Proof.
  rewrite raster_pipeline. now destruct (Nat.eqb (size (array raw)) 1).
Qed.

Lemma cell_at_map (f : cell -> cell) (a : list (list cell)) (i j : nat) :
  cell_at (map (map f) a) i j = option_map f (cell_at a i j).
Proof.
  unfold cell_at. rewrite nth_error_map.
  destruct (nth_error a i) as [row|]; simpl; [|reflexivity].
  apply nth_error_map.
Qed.

(** An accessor runs the routine [get] at the URL of its product. *)
Lemma accessor_unfold (P : product) (g : option Geometry)
    (r : option string) (s : State) :
  accessor P g r s = get (product_URL P) g r s.
Proof.
  destruct P;
    unfold Program.accessor, Program.FC, Program.WP, Program.get,
      Program.obtain, bind, get_self, path_exists, rt_Raster_open, ret,
      effective_resampling, product_URL;
    simpl;
    fold (FC_filename (self s)); fold (WP_filename (self s)).
  - destruct (exists_ (os s) (FC_filename (self s))); simpl.
    + destruct (Raster_open _ _ _ _); reflexivity.
    + destruct (Program.download_file _ _ _ _ _) as [s1 [e|x]];
        [reflexivity|]. simpl.
      destruct (Raster_open _ _ _ _); reflexivity.
  - destruct (exists_ (os s) (WP_filename (self s))); simpl.
    + destruct (Raster_open _ _ _ _); reflexivity.
    + destruct (Program.download_file _ _ _ _ _) as [s1 [e|x]];
        [reflexivity|]. simpl.
      destruct (Raster_open _ _ _ _); reflexivity.
Qed.

Lemma product_filename_join (self : SoilGrids) (P : product) :
  product_filename self P
  = join (source_directory self) (basename (product_URL P)).
Proof. destruct P; reflexivity. Qed.

(** Whenever [download_file] returns for a name that was absent, the name
    is there and the temporary one is gone. *)
Lemma download_file_returns (URL f x : string) (s s' : State) :
  exists_ (os s) f = false ->
  download_file URL f s = (s', inr x) ->
  x = f /\ exists_ (os s') f = true
  /\ exists_ (os s') (f ++ ".download") = false.
Proof.
  intros Habs. rewrite download_file_unfold, Habs. simpl.
  destruct (makedirs (dirname f) (os s)) as [e|o1]; [discriminate|].
  destruct (exists_ _ (f ++ ".download")); [|discriminate].
  destruct (move (f ++ ".download") f _) as [e|o3] eqn:Em; [discriminate|].
  intros [= <- <-]. split; [reflexivity|]. simpl.
  exact (move_download _ _ _ Em).
Qed.

(** For a name without directory part that is not there, the directory
    creation fails and the transfer is not reached. *)
Lemma download_file_bare_name (URL f : string) (s : State) :
  dirname f = "" -> exists_ (os s) f = false ->
  download_file URL f s
  = (record _ (call_makedirs "") (add_log (downloading URL f) s),
     inl (FileNotFoundError "")).
Proof.
  intros Hd Habs. rewrite download_file_unfold, Habs, Hd. reflexivity.
Qed.

Lemma transfers_app (t u : list (event Geometry)) :
  transfers (t ++ u) = (transfers t + transfers u)%nat.
Proof. unfold transfers. now rewrite filter_app, length_app. Qed.

Lemma transfers_open (t : list (event Geometry)) (f : string)
    (g : option Geometry) (r : string) :
  transfers (t ++ [call_open f g r]) = transfers t.
Proof. rewrite transfers_app. unfold transfers at 2. simpl. lia. Qed.

(** With the file of the product there, an accessor only opens it. *)
Lemma accessor_cache_hit (P : product) (g : option Geometry)
    (r : option string) (s : State) :
  exists_ (os s) (product_filename (self s) P) = true ->
  fst (accessor P g r s)
  = record _ (call_open (product_filename (self s) P) g
                (effective_resampling (self s) r)) s.
Proof.
  rewrite accessor_unfold, product_filename_join.
  unfold Program.get, Program.obtain. intros ->.
  destruct (Raster_open _ _ _ _); reflexivity.
Qed.

(** After an accessor has returned a raster, the file of the product is
    there. *)
Lemma accessor_leaves_file (P : product) (g : option Geometry)
    (r : option string) (s s' : State) (out : Image Geometry) :
  accessor P g r s = (s', inr out) ->
  exists_ (os s') (product_filename (self s) P) = true.
Proof.
  rewrite accessor_unfold, product_filename_join.
  unfold Program.get, Program.obtain.
  destruct (exists_ (os s) _) eqn:Ex.
  - destruct (Raster_open _ _ _ _); [discriminate|].
    now intros [= <- _].
  - destruct (Program.download_file _ _ _ _ _) as [s1 [e|x]] eqn:Ed;
      [discriminate|].
    destruct (Raster_open _ _ _ _); [discriminate|].
    intros [= <- _]. simpl.
    exact (proj1 (proj2 (download_file_returns _ _ _ _ _ Ex Ed))).
Qed.

(** What an accessor returns is the transform of what the open gave. *)
Lemma accessor_returns (P : product) (g : option Geometry)
    (r : option string) (s s' : State) (out : Image Geometry)
    (raw : Raster Geometry) :
  accessor P g r s = (s', inr out) ->
  Raster_open (files (os s')) (product_filename (self s) P) g
    (effective_resampling (self s) r) = inr raw ->
  out = transform raw.
Proof.
  rewrite accessor_unfold, product_filename_join. unfold Program.get.
  destruct (Program.obtain _ _ _ _ _) as [s1 [e|u]]; [discriminate|].
  destruct (Raster_open (files (os s1)) _ _ _) as [msg|raw'] eqn:E;
    [discriminate|].
  intros [= <- <-]. simpl. rewrite E. now intros [= <-].
Qed.

(** What an accessor adds to the trace is what [download_file] adds, then
    the open if it gets that far. *)
Lemma accessor_opens (P : product) (g : option Geometry)
    (r : option string) (s : State) :
  opens_with Geometry system Raster_open P g r
    (effective_resampling (self s) r) s.
Proof.
  unfold opens_with. rewrite accessor_unfold, product_filename_join.
  unfold Program.get, Program.obtain.
  set (path := join (source_directory (self s)) (basename (product_URL P))).
  set (used := effective_resampling (self s) r).
  destruct (exists_ (os s) path).
  - exists [call_open path g used].
    split; [destruct (Raster_open _ _ _ _); reflexivity|].
    split.
    + intros f g' r' [[= <- <- <-]|[]]. auto.
    + intros _ _. now left.
  - destruct (download_file_trace (product_URL P) path s) as (evs & Ht & Hno).
    assert (forall f g' r', ~ In (call_open f g' r') evs) as Hnot.
    { intros f g' r' Hin. rewrite forallb_forall in Hno.
      specialize (Hno _ Hin). discriminate. }
    destruct (Program.download_file _ _ _ _ _) as [s1 [e|x]]; simpl in Ht.
    + exists evs. split; [exact Ht|]. split.
      * intros f g' r' Hin. now apply Hnot in Hin.
      * intros out. discriminate.
    + exists (evs ++ [call_open path g used])%list. split.
      * destruct (Raster_open _ _ _ _); simpl; rewrite Ht;
          now rewrite <- app_assoc.
      * split.
        -- intros f g' r' Hin. apply in_app_or in Hin as [Hin|Hin].
           ++ now apply Hnot in Hin.
           ++ destruct Hin as [[= <- <- <-]|[]]. auto.
        -- intros _ _. apply in_or_app. right. now left.
Qed.

(** An accessor does not touch the instance. *)
Lemma accessor_self (P : product) (g : option Geometry)
    (r : option string) (s : State) :
  self (fst (accessor P g r s)) = self s.
Proof.
  rewrite accessor_unfold. unfold Program.get, Program.obtain.
  destruct (exists_ (os s) _).
  - destruct (Raster_open _ _ _ _); reflexivity.
  - pose proof (download_file_self (product_URL P)
        (join (source_directory (self s)) (basename (product_URL P))) s) as H.
    destruct (Program.download_file _ _ _ _ _) as [s1 [e|x]]; simpl in *;
      [exact H|].
    destruct (Raster_open _ _ _ _); simpl; exact H.
Qed.

End WithCollaborators.
End ProgramFacts.

(** ** The claims *)

Section Claims.
Import PyStr PosixPath Numeric Rasters OS Program.
Import PathFacts OSFacts NumericFacts ProgramFacts.

Variable Geometry : Type.
Variable system : string -> OS.state -> Z * OS.state.
Variable Raster_open :
  (string -> option node) -> string -> option Geometry -> string ->
  string + Raster Geometry.

Local Abbreviation State := (State Geometry).
Local Abbreviation download_file := (download_file Geometry system).
Local Abbreviation FC := (FC Geometry system Raster_open).
Local Abbreviation WP := (WP Geometry system Raster_open).
Local Abbreviation accessor := (accessor Geometry system Raster_open).
Local Abbreviation get := (get Geometry system Raster_open).
Local Abbreviation opens_with := (opens_with Geometry system Raster_open).

(** C1. For both accessors ([accessor P] is [FC] or [WP]) and every cell of
    the raster that the open returned: if the raw value equals the sentinel
    255, what the accessor returns holds not-a-number at that position.
    What it returns is a raster whose [nodata] attribute is not-a-number,
    unless the opened raster has exactly one cell: then it is a bare
    array, which has no [nodata] attribute. *)
Theorem sentinel_becomes_missing (P : product) (g : option Geometry)
    (r : option string) (s s' : State) (out : Image Geometry)
    (raw : Raster Geometry) :
  accessor P g r s = (s', inr out) ->
  Raster_open (files (os s')) (product_filename (self s) P) g
    (effective_resampling (self s) r) = inr raw ->
  (forall i j v,
      cell_at (array raw) i j = Some v ->
      cell_eqb v (Fin 255) = true ->
      cell_at (cells out) i j = Some NaN)
  /\ (size (array raw) <> 1%nat ->
      exists image, out = as_raster image /\ nodata image = Some NaN)
  /\ (size (array raw) = 1%nat -> out = as_ndarray (cells out)).
Proof.
  intros Hrun Hopen.
  rewrite (accessor_returns _ _ _ P g r s s' out raw Hrun Hopen).
  split; [|split].
  - intros i j v Hcell H255.
    rewrite cells_transform, cell_at_map, Hcell. simpl. f_equal.
    unfold returned_cell, transform_cell, sentinel. rewrite H255.
    now destruct (declared_missing raw v).
  - intros Hsize. apply Nat.eqb_neq in Hsize.
    rewrite raster_pipeline, Hsize. eexists. split; reflexivity.
  - intros Hsize. apply Nat.eqb_eq in Hsize.
    rewrite raster_pipeline, Hsize. reflexivity.
Qed.


(** C3. For every URL and target file name: if the target exists,
    [download_file] returns it at once; it only logs, so the file system is
    untouched and no transfer, directory creation or move is called. Hence
    an accessor whose file is there calls no transfer and leaves the file
    system as it is. *)
Theorem download_file_cache_hit (URL filename : string) (s : State) :
  exists_ (os s) filename = true ->
  download_file URL filename s
  = (add_log (file_already_downloaded filename) s, inr filename)
  /\ os (fst (download_file URL filename s)) = os s
  /\ trace (fst (download_file URL filename s)) = trace s
  /\ (forall P g r,
        filename = product_filename (self s) P ->
        os (fst (accessor P g r s)) = os s
        /\ transfers (trace (fst (accessor P g r s))) = transfers (trace s)).
Proof.
  intros Hex. rewrite download_file_unfold, Hex. simpl.
  repeat split.
  - rewrite accessor_cache_hit by (rewrite <- H; exact Hex). reflexivity.
  - rewrite accessor_cache_hit by (rewrite <- H; exact Hex). simpl.
    apply transfers_open.
Qed.

(** Two calls in a row: after an accessor has returned a raster, the next
    call of that accessor, with any arguments, calls no transfer. *)
Corollary second_call_no_transfer (P : product) (g g' : option Geometry)
    (r r' : option string) (s0 s : State) (out : Image Geometry) :
  accessor P g r s0 = (s, inr out) ->
  transfers (trace (fst (accessor P g' r' s))) = transfers (trace s).
Proof.
  intros Hrun.
  pose proof (accessor_leaves_file _ _ _ _ _ _ _ _ _ Hrun) as Hfile.
  pose proof (accessor_self _ system Raster_open P g r s0) as Hself.
  rewrite Hrun in Hself. simpl in Hself. rewrite <- Hself in Hfile.
  rewrite accessor_cache_hit by exact Hfile. simpl.
  apply transfers_open.
Qed.

(** C4. For both products: if the local file is absent and the transfer
    command is reached and leaves output at the temporary name, then the
    final path is [source_directory] joined with the base name of the URL,
    and whenever [download_file] returns, it returns that path, the path
    exists and the temporary name does not. It does return, the transfer
    command having written nowhere but at the temporary name. *)
Theorem download_file_success (P : product) (s : State) (o1 o2 : OS.state)
    (status : Z) :
  let URL := product_URL P in
  let filename := product_filename (self s) P in
  exists_ (os s) filename = false ->
  makedirs (dirname filename) (os s) = inr o1 ->
  system (wget_command (filename ++ ".download") URL) o1 = (status, o2) ->
  exists_ o2 (filename ++ ".download") = true ->
  filename = join (source_directory (self s)) (basename URL)
  /\ (forall s' x,
        download_file URL filename s = (s', inr x) ->
        x = filename
        /\ exists_ (os s') filename = true
        /\ exists_ (os s') (filename ++ ".download") = false)
  /\ (writes_only (filename ++ ".download") o1 o2 ->
      exists s', download_file URL filename s = (s', inr filename)).
Proof.
  intros URL filename Habs Hmk Hsys Hpart.
  split; [apply product_filename_join|].
  split; [intros s' x; apply download_file_returns; exact Habs|].
  intros Hframe.
  assert (filename <> "") as Hne.
  { intros E. rewrite E in Hmk. simpl in Hmk. discriminate. }
  destruct (exists_absent _ _ Habs) as (_ & Hfiles).
  destruct (Hfiles Hne) as (Hroot & Hnone).
  pose proof (dirname_shorter filename Hne Hroot) as Hshort.
  assert (stat o2 filename = None) as Hstat.
  { rewrite (stat_files o1 o2)
      by (apply Hframe; symmetry; apply download_name_neq).
    rewrite (stat_files (os s) o1)
      by (apply (makedirs_frame _ _ _ _ Hmk); exact Hshort).
    unfold exists_ in Habs. destruct (stat (os s) filename); congruence. }
  assert (check_parent o2 filename = None) as Hpar.
  { unfold check_parent.
    rewrite (eqb_differ _ _ Hne).
    destruct (String.eqb (dirname filename) ""); [reflexivity|].
    rewrite (stat_files o1 o2).
    - now rewrite (makedirs_isdir _ _ _ Hmk).
    - apply Hframe. intros E.
      pose proof (download_name_longer filename) as Hl.
      rewrite <- E in Hl. lia. }
  destruct (move_download_succeeds filename o2 Hstat Hpar Hpart) as [o3 Hmove].
  rewrite download_file_unfold, Habs, Hmk. simpl.
  rewrite Hsys. simpl. rewrite Hpart, Hmove. eexists. reflexivity.
Qed.

(** C5. For both accessors and every cell of the opened raster that holds
    a number [v] with [0 <= v <= 100]: what the accessor returns holds
    exactly [v / 100] at that position, unless [v] is the value that the
    opened raster declares as missing, which becomes not-a-number. The
    clamp to [0, 1] is the identity there, as [v / 100] lies in [0, 1]. *)
Theorem percent_maps_to_fraction (P : product) (g : option Geometry)
    (r : option string) (s s' : State) (out : Image Geometry)
    (raw : Raster Geometry) (i j : nat) (v : Q) :
  accessor P g r s = (s', inr out) ->
  Raster_open (files (os s')) (product_filename (self s) P) g
    (effective_resampling (self s) r) = inr raw ->
  cell_at (array raw) i j = Some (Fin v) ->
  (0 <= v)%Q -> (v <= 100)%Q ->
  (declared_missing raw (Fin v) = false ->
   cell_at (cells out) i j = Some (Fin (v / 100)))
  /\ (declared_missing raw (Fin v) = true ->
      cell_at (cells out) i j = Some NaN)
  /\ (0 <= v / 100)%Q /\ (v / 100 <= 1)%Q
  /\ cell_clip (Fin (v / 100)) 0 1 = Fin (v / 100).
Proof.
  intros Hrun Hopen Hcell H0 H100.
  destruct (div_hundred_bounds v) as (Hlo & Hhi & _).
  specialize (Hlo H0). specialize (Hhi H100).
  assert (cell_clip (Fin (v / 100)) 0 1 = Fin (v / 100)) as Hclip
    by now apply cell_clip_inside.
  rewrite (accessor_returns _ _ _ P g r s s' out raw Hrun Hopen).
  rewrite cells_transform, cell_at_map, Hcell. simpl. unfold returned_cell.
  repeat split; try assumption; intros ->; [|reflexivity].
  f_equal. unfold transform_cell, sentinel, cell_eqb.
  rewrite Qeq_bool_false by (intros E; rewrite E in H100; lra).
  now rewrite cell_div_hundred.
Qed.

(** C6. For both accessors and every cell of the opened raster that holds
    a number [v] with [100 < v < 255]: what the accessor returns holds
    exactly 1 at that position, which is not the unclamped [v / 100],
    unless [v] is the value that the opened raster declares as missing,
    which becomes not-a-number. *)
Theorem above_hundred_clamps_to_one (P : product) (g : option Geometry)
    (r : option string) (s s' : State) (out : Image Geometry)
    (raw : Raster Geometry) (i j : nat) (v : Q) :
  accessor P g r s = (s', inr out) ->
  Raster_open (files (os s')) (product_filename (self s) P) g
    (effective_resampling (self s) r) = inr raw ->
  cell_at (array raw) i j = Some (Fin v) ->
  (100 < v)%Q -> (v < 255)%Q ->
  (declared_missing raw (Fin v) = false ->
   cell_at (cells out) i j = Some (Fin 1))
  /\ (declared_missing raw (Fin v) = true ->
      cell_at (cells out) i j = Some NaN)
  /\ ~ (v / 100 == 1)%Q.
Proof.
  intros Hrun Hopen Hcell H100 H255.
  destruct (div_hundred_bounds v) as (_ & _ & Hgt). specialize (Hgt H100).
  rewrite (accessor_returns _ _ _ P g r s s' out raw Hrun Hopen).
  rewrite cells_transform, cell_at_map, Hcell. simpl. unfold returned_cell.
  repeat split; try lra; intros ->; [|reflexivity].
  f_equal. unfold transform_cell, sentinel, cell_eqb.
  rewrite Qeq_bool_false by (intros E; rewrite E in H255; lra).
  rewrite cell_div_hundred. apply cell_clip_above; lra.
Qed.

(** C7. For every instance, both accessors and every resampling argument
    [x] that is given: the raster is opened with [x], whatever the
    resampling of the instance is, and the [resampling] attribute of the
    instance is the same after the call. With no resampling given, the
    raster is opened with the resampling of the instance. *)
Theorem resampling_override (P : product) (g : option Geometry) (s : State) :
  (forall x,
      opens_with P g (Some x) x s
      /\ resampling (self (fst (accessor P g (Some x) s)))
         = resampling (self s))
  /\ opens_with P g None (resampling (self s)) s
  /\ resampling (self (fst (accessor P g None s))) = resampling (self s).
Proof.
  split; [intros x; split | split].
  - exact (accessor_opens _ system Raster_open P g (Some x) s).
  - now rewrite accessor_self.
  - exact (accessor_opens _ system Raster_open P g None s).
  - now rewrite accessor_self.
Qed.

(** C8. Constructed with the working directory [/tmp/wd] and no source
    directory, in any environment and with any resampling, an instance has
    the source directory [/tmp/wd/SoilGrids_download] and the field
    capacity file name below it; and for every instance the local path of a
    product is [source_directory] joined with the base name of its URL. *)
Theorem tmp_wd_scenario (env : Env) (r : string) :
  let sg := __init__ env (Some "/tmp/wd") None r in
  source_directory sg = "/tmp/wd/SoilGrids_download"
  /\ FC_filename sg
     = "/tmp/wd/SoilGrids_download/sol_watercontent.33kPa_usda.4b1c_m_250m_b0..0cm_1950..2017_v0.1.tif"
  /\ forall (self : SoilGrids) (P : product),
       product_filename self P
       = join (source_directory self)
           (basename (product_URL P)).
Proof.
  split; [vm_compute; reflexivity|].
  split; [vm_compute; reflexivity|].
  intros self P. destruct P; reflexivity.
Qed.

(** C9. [FC] and [WP] are the one routine [get], at [FC_URL] and at
    [WP_URL]: for every geometry, resampling argument and state (the file
    system and what the raster reader makes of it included), each returns
    what [get] returns and leaves the state [get] leaves. The URL is the
    only parameter of [get] that tells the two apart; the local file name
    is derived from it. *)
Theorem accessors_are_one_routine (g : option Geometry) (r : option string)
    (s : State) :
  FC g r s = get FC_URL g r s /\ WP g r s = get WP_URL g r s.
Proof.
  split.
  - exact (accessor_unfold _ system Raster_open FieldCapacity g r s).
  - exact (accessor_unfold _ system Raster_open WiltingPoint g r s).
Qed.

(** C10. For every working directory that is absolute (as [os.getcwd]
    gives it) and all arguments of the constructor: the attributes
    [working_directory] and [source_directory] are absolute paths; given as
    strings, they are [abspath (expanduser _)] of the arguments. No
    operation assigns them: [download_file], [FC] and [WP] leave the
    instance as it is. *)
Theorem directories_absolute_expanded (env : Env)
    (wd sd : option string) (r : string) :
  isabs (getcwd env) = true ->
  let sg := __init__ env wd sd r in
  isabs (working_directory sg) = true
  /\ isabs (source_directory sg) = true
  /\ (forall w, wd = Some w ->
        working_directory sg = abspath env (expanduser env w))
  /\ (forall d, sd = Some d ->
        source_directory sg = abspath env (expanduser env d))
  /\ (forall s : State, self s = sg ->
        (forall URL f, self (fst (download_file URL f s)) = sg)
        /\ (forall g x, self (fst (FC g x s)) = sg)
        /\ (forall g x, self (fst (WP g x s)) = sg)).
Proof.
  intros Hcwd sg. unfold sg, __init__. simpl.
  split; [now apply AbsFacts.abspath_isabs|].
  split; [now apply AbsFacts.abspath_isabs|].
  split; [now intros w ->|].
  split; [now intros d ->|].
  intros s Hs. split; [|split].
  - intros URL f. now rewrite download_file_self.
  - intros g x.
    exact (eq_trans
             (accessor_self _ system Raster_open FieldCapacity g x s) Hs).
  - intros g x.
    exact (eq_trans
             (accessor_self _ system Raster_open WiltingPoint g x s) Hs).
Qed.

End Claims.

(** * Further properties of the module *)

(** ** Normalised paths *)

Module NormFacts.
Import PyStr PosixPath PathShape PathFacts OSFacts AbsFacts.
Local Open Scope nat_scope.

Lemma startswith_empty (x : string) : startswith x "" = true.
Proof. destruct x; reflexivity. Qed.

Lemma startswith_cons (c : ascii) (r p : string) :
  startswith (String c r) (String slash p) = is_slash c && startswith r p.
Proof.
  unfold startswith, is_slash, slash.
  change (String.prefix (String "/" p) (String c r))
    with (if ascii_dec "/"%char c then String.prefix p r else false).
  destruct (ascii_dec "/"%char c) as [<-|Hne]; [reflexivity|].
  symmetry. apply andb_false_iff. left. apply Ascii.eqb_neq. congruence.
Qed.

Lemma startswith_nil (p : string) : startswith "" (String slash p) = false.
Proof. reflexivity. Qed.

(** *** Splitting at the slashes *)

Lemma split_slash_nonempty (s : string) : split_slash s <> [].
Proof.
  induction s as [|c s IH]; simpl; [discriminate|].
  destruct (is_slash c); [discriminate|].
  destruct (split_slash s); discriminate.
Qed.

Lemma split_slash_noslash (s : string) : Forall noslashP (split_slash s).
Proof.
  induction s as [|c s IH]; simpl.
  - constructor; [reflexivity | constructor].
  - destruct (is_slash c) eqn:Ec.
    + constructor; [reflexivity | exact IH].
    + pose proof (split_slash_nonempty s) as Hne.
      destruct (split_slash s) as [|h t]; [congruence|].
      inversion IH as [|? ? Hh Ht]; subst.
      constructor; [|exact Ht].
      unfold noslashP in *. simpl. now rewrite Ec, Hh.
Qed.

Lemma split_slash_append (a b : string) :
  split_slash (a ++ String slash b) = (split_slash a ++ split_slash b)%list.
Proof.
  induction a as [|c a IH]; simpl.
  - reflexivity.
  - rewrite IH. destruct (is_slash c); [reflexivity|].
    pose proof (split_slash_nonempty a) as Hne.
    destruct (split_slash a) as [|h t]; [contradiction | reflexivity].
Qed.

Lemma split_slash_one (d : string) : noslash d = true -> split_slash d = [d].
Proof.
  induction d as [|c d IH]; simpl; [reflexivity|].
  intros H. apply andb_true_iff in H as [Hc Hd].
  apply negb_true_iff in Hc. rewrite Hc, (IH Hd). reflexivity.
Qed.

Lemma endswith_slash_split (s : string) :
  endswith_slash s = true -> exists z, s = z ++ String slash "".
Proof.
  induction s as [|c s IH]; simpl; [discriminate|].
  destruct s as [|x s].
  - intros H. exists "". simpl. f_equal.
    unfold is_slash in H. now apply Ascii.eqb_eq in H.
  - intros H. destruct (IH H) as [z Hz]. exists (String c z).
    simpl. now rewrite <- Hz.
Qed.

Lemma endswith_slash_append (a b : string) :
  b <> "" -> endswith_slash (a ++ b) = endswith_slash b.
Proof.
  intros Hb. induction a as [|c a IH]; simpl; [reflexivity|].
  rewrite <- IH. destruct (a ++ b) as [|x r] eqn:E; [|reflexivity].
  destruct a; simpl in E; [congruence | discriminate].
Qed.

Lemma noslash_endswith (c : string) : noslash c = true -> endswith_slash c = false.
Proof.
  induction c as [|x c IH]; simpl; [reflexivity|].
  intros H. apply andb_true_iff in H as [Hx Hc].
  apply negb_true_iff in Hx. destruct c; [exact Hx | now apply IH].
Qed.

Lemma noslash_startswith (c : string) :
  noslash c = true -> startswith c "/" = false.
Proof.
  rewrite startswith_slash. destruct c as [|x c]; [reflexivity|]. simpl.
  intros H. apply andb_true_iff in H as [Hx _]. now apply negb_true_iff in Hx.
Qed.

Lemma plain_noslash (c : string) : plain c = true -> noslash c = true.
Proof.
  unfold plain. intros H.
  repeat (apply andb_true_iff in H as [H ?]). exact H.
Qed.

Lemma plain_inv (c : string) :
  plain c = true -> c <> "" /\ c <> "." /\ c <> "..".
Proof.
  unfold plain. intros H.
  apply andb_true_iff in H as [H H3]. apply andb_true_iff in H as [H H2].
  apply andb_true_iff in H as [_ H1].
  apply negb_true_iff in H1, H2, H3.
  repeat split; now apply String.eqb_neq.
Qed.

(** *** The loop of [normpath] on an absolute path *)

Lemma last_in {A : Type} (l : list A) (d : A) : l <> [] -> In (last l d) l.
Proof.
  induction l as [|a l IH]; [congruence|]. intros _.
  destruct l as [|b l]; [now left|]. right. apply IH. discriminate.
Qed.

Lemma normpath_step_abs (n : nat) (acc : list string) (d : string) :
  n <> 0 -> Forall plainP acc ->
  normpath_step n acc d
  = if String.eqb d "" || String.eqb d "." then acc
    else if String.eqb d ".." then removelast acc
    else (acc ++ [d])%list.
Proof.
  intros Hn Hacc. unfold normpath_step.
  destruct (String.eqb d "" || String.eqb d "."); [reflexivity|].
  destruct (String.eqb d ".."); [|reflexivity]. simpl.
  rewrite (proj2 (Nat.eqb_neq n 0) Hn). simpl.
  destruct acc as [|a acc]; [reflexivity|].
  change (Nat.eqb (List.length (a :: acc)) 0) with false. cbv beta iota.
  simpl negb. rewrite andb_true_l.
  assert (In (last (a :: acc) "") (a :: acc)) as Hin
    by (apply last_in; discriminate).
  rewrite Forall_forall in Hacc. specialize (Hacc _ Hin).
  destruct (plain_inv _ Hacc) as (_ & _ & H).
  now rewrite (eqb_differ _ _ H).
Qed.

Lemma removelast_Forall {A : Type} (Q : A -> Prop) (l : list A) :
  Forall Q l -> Forall Q (removelast l).
Proof.
  induction 1 as [|a l Ha Hl IH]; simpl; [constructor|].
  destruct l; [constructor | constructor; assumption].
Qed.

Lemma normpath_step_plain (n : nat) (acc : list string) (d : string) :
  n <> 0 -> noslash d = true -> Forall plainP acc ->
  Forall plainP (normpath_step n acc d).
Proof.
  intros Hn Hd Hacc. rewrite normpath_step_abs by assumption.
  destruct (String.eqb d "") eqn:E1; [exact Hacc|].
  destruct (String.eqb d ".") eqn:E2; [exact Hacc|]. simpl.
  destruct (String.eqb d "..") eqn:E3; [now apply removelast_Forall|].
  apply Forall_app. split; [exact Hacc|].
  constructor; [|constructor].
  unfold plainP, plain. now rewrite Hd, E1, E2, E3.
Qed.

Lemma fold_plain (n : nat) (l acc : list string) :
  n <> 0 -> Forall noslashP l -> Forall plainP acc ->
  Forall plainP (fold_left (normpath_step n) l acc).
Proof.
  intros Hn Hl. revert acc. induction Hl as [|d l Hd _ IH]; intros acc Hacc.
  - exact Hacc.
  - simpl. apply IH. now apply normpath_step_plain.
Qed.

Lemma initial_slashes_abs (path : string) :
  isabs path = true -> initial_slashes path = 1 \/ initial_slashes path = 2.
Proof.
  unfold initial_slashes, isabs. intros ->.
  destruct (_ && _); auto.
Qed.

Lemma norm_comps_plain (path : string) :
  isabs path = true -> Forall plainP (norm_comps path).
Proof.
  intros H. unfold norm_comps. apply fold_plain.
  - destruct (initial_slashes_abs _ H); lia.
  - apply split_slash_noslash.
  - constructor.
Qed.

(** [normpath] of an absolute path: the slashes it keeps, then the
    components that are left, joined. *)
Lemma normpath_abs (path : string) :
  isabs path = true ->
  normpath path
  = repeat_slash (initial_slashes path) ++ join_slash (norm_comps path).
Proof.
  intros H. unfold normpath.
  destruct (String.eqb_spec path "") as [->|_]; [discriminate|].
  fold (initial_slashes path). fold (norm_comps path).
  destruct (initial_slashes_abs _ H) as [-> | ->]; reflexivity.
Qed.

(** *** Joining one component on *)

(** [join] with a component that does not start with a slash. *)
Lemma join_relative (a d : string) :
  startswith d "/" = false ->
  join a d = if String.eqb a "" || endswith_slash a then a ++ d
             else a ++ String slash d.
Proof. intros H. unfold join. now rewrite H. Qed.

Lemma initial_slashes_1 (a : ascii) :
  initial_slashes (String a "") = if is_slash a then 1 else 0.
Proof.
  unfold initial_slashes.
  change "/" with (String slash "").
  change "//" with (String slash (String slash "")).
  rewrite !startswith_cons, !startswith_empty, startswith_nil.
  destruct (is_slash a); reflexivity.
Qed.

Lemma initial_slashes_2 (a b : ascii) :
  initial_slashes (String a (String b ""))
  = if is_slash a then if is_slash b then 2 else 1 else 0.
Proof.
  unfold initial_slashes.
  change "/" with (String slash "").
  change "//" with (String slash (String slash "")).
  change "///" with (String slash (String slash (String slash ""))).
  rewrite !startswith_cons, !startswith_empty, startswith_nil.
  destruct (is_slash a), (is_slash b); reflexivity.
Qed.

Lemma initial_slashes_3 (a b c : ascii) (r : string) :
  initial_slashes (String a (String b (String c r)))
  = if is_slash a then if is_slash b && negb (is_slash c) then 2 else 1
    else 0.
Proof.
  unfold initial_slashes.
  change "/" with (String slash "").
  change "//" with (String slash (String slash "")).
  change "///" with (String slash (String slash (String slash ""))).
  rewrite !startswith_cons, !startswith_empty.
  destruct (is_slash a), (is_slash b), (is_slash c); reflexivity.
Qed.

Lemma isabs_slash (a : ascii) (r : string) :
  isabs (String a r) = true -> is_slash a = true.
Proof. now rewrite isabs_head. Qed.

(** The leading slashes are those of the path joined on to. *)
Lemma initial_slashes_join (z d : string) :
  isabs z = true -> d <> "" -> noslash d = true ->
  initial_slashes (join z d) = initial_slashes z.
Proof.
  intros Hz Hd Hn.
  rewrite join_relative by now apply noslash_startswith.
  destruct d as [|x d]; [congruence|]. clear Hd.
  cbn [noslash] in Hn. apply andb_true_iff in Hn as [Hx _].
  apply negb_true_iff in Hx.
  destruct z as [|a [|b [|c r]]]; [discriminate| | |];
    pose proof (isabs_slash _ _ Hz) as Ha.
  - change (String.eqb (String a "") "" || endswith_slash (String a ""))
      with (is_slash a).
    rewrite Ha. cbn [append]. rewrite initial_slashes_1, Ha.
    destruct d as [|y d].
    + now rewrite initial_slashes_2, Ha, Hx.
    + now rewrite initial_slashes_3, Ha, Hx.
  - change (String.eqb (String a (String b "")) ""
            || endswith_slash (String a (String b "")))
      with (is_slash b).
    rewrite initial_slashes_2, Ha.
    destruct (is_slash b) eqn:Eb; cbn [append];
      rewrite initial_slashes_3, Ha, ?Eb, ?Hx; reflexivity.
  - destruct (String.eqb _ "" || endswith_slash _); cbn [append];
      now rewrite !initial_slashes_3.
Qed.

Lemma fold_left_snoc {A B : Type} (f : A -> B -> A) (l : list B) (d : B)
    (acc : A) :
  fold_left f (l ++ [d])%list acc = f (fold_left f l acc) d.
Proof. now rewrite fold_left_app. Qed.

(** The components of a path joined on to are those of the path, with one
    more round of the loop. *)
Lemma norm_comps_join (z d : string) :
  isabs z = true -> d <> "" -> noslash d = true ->
  norm_comps (join z d)
  = normpath_step (initial_slashes z) (norm_comps z) d.
Proof.
  intros Hz Hd Hn. unfold norm_comps.
  rewrite initial_slashes_join by assumption.
  rewrite join_relative by now apply noslash_startswith.
  destruct z as [|a r] eqn:Ez; [discriminate|]. rewrite <- Ez in *.
  assert (String.eqb z "" = false) as -> by (subst z; reflexivity).
  simpl orb. set (n := initial_slashes z). clearbody n.
  destruct (endswith_slash z) eqn:Ee.
  - destruct (endswith_slash_split _ Ee) as [y Hy].
    rewrite Hy. rewrite append_assoc. simpl append.
    rewrite !split_slash_append. change (split_slash "") with [""].
    rewrite (split_slash_one d Hn), !fold_left_snoc. reflexivity.
  - rewrite split_slash_append, (split_slash_one d Hn), fold_left_snoc.
    reflexivity.
Qed.

(** *** Joined components *)

Lemma join_slash_snoc (cs : list string) (d : string) :
  cs <> [] -> join_slash (cs ++ [d]) = join_slash cs ++ String slash d.
Proof.
  induction cs as [|c cs IH]; [congruence|]. intros _.
  destruct cs as [|c' cs]; [reflexivity|].
  change (join_slash ((c :: c' :: cs) ++ [d])%list)
    with (c ++ "/" ++ join_slash ((c' :: cs) ++ [d])%list).
  rewrite IH by discriminate.
  change (join_slash (c :: c' :: cs))
    with (c ++ "/" ++ join_slash (c' :: cs)).
  now rewrite !append_assoc.
Qed.

Lemma join_slash_endswith (cs : list string) :
  Forall plainP cs -> endswith_slash (join_slash cs) = false.
Proof.
  induction 1 as [|c cs Hc Hcs IH]; [reflexivity|].
  destruct cs as [|c' cs].
  - simpl. apply noslash_endswith. now apply plain_noslash.
  - change (join_slash (c :: c' :: cs))
      with (c ++ String slash (join_slash (c' :: cs))).
    rewrite endswith_slash_append by discriminate.
    inversion Hcs as [|? ? Hc' _]; subst.
    assert (join_slash (c' :: cs) <> "") as Hne.
    { destruct (plain_inv _ Hc') as (H & _).
      destruct c'; [congruence|]. destruct cs; discriminate. }
    change (String slash (join_slash (c' :: cs)))
      with (String slash "" ++ join_slash (c' :: cs)).
    now rewrite endswith_slash_append.
Qed.

Lemma repeat_slash_endswith (n : nat) :
  n <> 0 -> endswith_slash (repeat_slash n) = true.
Proof.
  induction n as [|n IH]; [congruence|]. intros _.
  destruct n; [reflexivity|]. simpl in *. apply IH. discriminate.
Qed.

(** A normalised absolute path, one component joined on. *)
Lemma join_normalised (n : nat) (cs : list string) (d : string) :
  n <> 0 -> Forall plainP cs -> noslash d = true ->
  join (repeat_slash n ++ join_slash cs) d
  = repeat_slash n ++ join_slash (cs ++ [d]).
Proof.
  intros Hn Hcs Hd.
  rewrite join_relative by now apply noslash_startswith.
  destruct cs as [|c cs].
  - simpl join_slash. rewrite append_empty_r.
    rewrite (repeat_slash_endswith n Hn), orb_true_r. reflexivity.
  - assert (join_slash (c :: cs) <> "") as Hne.
    { inversion Hcs as [|? ? Hc _]; subst.
      destruct (plain_inv _ Hc) as (H & _).
      destruct c; [congruence|]. destruct cs; discriminate. }
    rewrite (endswith_slash_append _ _ Hne), (join_slash_endswith _ Hcs).
    assert (String.eqb (repeat_slash n ++ join_slash (c :: cs)) "" = false)
      as ->.
    { apply String.eqb_neq. destruct n; [congruence | discriminate]. }
    simpl orb. cbv iota.
    rewrite join_slash_snoc by discriminate. now rewrite append_assoc.
Qed.

(** [normpath] goes through a [join] with a plain component. *)
Lemma normpath_join (z d : string) :
  isabs z = true -> plain d = true ->
  normpath (join z d) = join (normpath z) d.
Proof.
  intros Hz Hd.
  pose proof (plain_noslash _ Hd) as Hn.
  destruct (plain_inv _ Hd) as (H1 & H2 & H3).
  assert (initial_slashes z <> 0) as Hi
    by (destruct (initial_slashes_abs _ Hz); lia).
  rewrite (normpath_abs (join z d)) by now apply join_isabs.
  rewrite initial_slashes_join, norm_comps_join by assumption.
  rewrite normpath_step_abs by (try apply norm_comps_plain; assumption).
  rewrite (eqb_differ _ _ H1), (eqb_differ _ _ H2), (eqb_differ _ _ H3).
  simpl orb. cbv iota.
  rewrite (normpath_abs z Hz).
  symmetry. apply join_normalised; try assumption.
  now apply norm_comps_plain.
Qed.

(** Joining [.] on changes nothing. *)
Lemma normpath_join_dot (z : string) :
  isabs z = true -> normpath (join z ".") = normpath z.
Proof.
  intros Hz.
  assert (initial_slashes z <> 0) as Hi
    by (destruct (initial_slashes_abs _ Hz); lia).
  rewrite (normpath_abs (join z ".")) by now apply join_isabs.
  rewrite initial_slashes_join, norm_comps_join
    by (assumption || discriminate || reflexivity).
  rewrite normpath_step_abs by (try apply norm_comps_plain; assumption).
  simpl. now rewrite (normpath_abs z Hz).
Qed.

(** [normpath] leaves a normalised absolute path as it is. *)
Lemma normpath_normalised (n : nat) (cs : list string) :
  n = 1 \/ n = 2 -> Forall plainP cs ->
  normpath (repeat_slash n ++ join_slash cs) = repeat_slash n ++ join_slash cs.
Proof.
  intros Hn. induction cs as [|d cs IH] using rev_ind; intros Hcs.
  - destruct Hn as [-> | ->]; reflexivity.
  - apply Forall_app in Hcs as [Hcs Hd]. inversion Hd as [|? ? Hp _]; subst.
    assert (n <> 0) as Hn0 by lia.
    rewrite <- (join_normalised n cs d Hn0 Hcs (plain_noslash _ Hp)).
    rewrite normpath_join; [now rewrite (IH Hcs)| |exact Hp].
    apply isabs_append. destruct Hn as [-> | ->]; reflexivity.
Qed.

Lemma normpath_idempotent (z : string) :
  isabs z = true -> normpath (normpath z) = normpath z.
Proof.
  intros Hz. rewrite (normpath_abs z Hz).
  apply normpath_normalised;
    [apply initial_slashes_abs | apply norm_comps_plain]; assumption.
Qed.

(** *** [join] is associative *)

Lemma join_absolute (a b : string) : startswith b "/" = true -> join a b = b.
Proof. intros H. unfold join. now rewrite H. Qed.

Lemma startswith_append (a b : string) :
  a <> "" -> startswith (a ++ b) "/" = startswith a "/".
Proof.
  intros Ha. rewrite !startswith_slash. destruct a; [congruence | reflexivity].
Qed.

Lemma startswith_append_same (a b : string) (v : bool) :
  a <> "" -> startswith a "/" = v -> startswith (a ++ b) "/" = v.
Proof. intros Ha <-. now apply startswith_append. Qed.

Lemma append_eq_empty (a b : string) : a ++ b = "" -> a = "" /\ b = "".
Proof. destruct a; simpl; [auto | discriminate]. Qed.

(** [join] puts [separator a] between [a] and a relative path. *)
Lemma join_separator (a d : string) :
  startswith d "/" = false -> join a d = a ++ separator a ++ d.
Proof.
  intros H. rewrite (join_relative a d H). unfold separator.
  destruct (String.eqb a "" || endswith_slash a); reflexivity.
Qed.

Lemma separator_append (u b : string) :
  b <> "" -> separator (u ++ b) = separator b.
Proof.
  intros Hb. unfold separator.
  rewrite (endswith_slash_append u b Hb), (eqb_differ b "" Hb).
  assert (u ++ b <> "") as H
    by (intros E; apply append_eq_empty in E; tauto).
  now rewrite (eqb_differ _ _ H).
Qed.

Lemma separator_closed (a : string) : separator (a ++ separator a) = "".
Proof.
  unfold separator at 2.
  destruct (String.eqb_spec a "") as [->|Ha]; [reflexivity|]. simpl orb.
  destruct (endswith_slash a) eqn:Ee.
  - rewrite append_empty_r. unfold separator. now rewrite Ee, orb_true_r.
  - unfold separator. rewrite endswith_slash_append by discriminate.
    simpl. now rewrite orb_true_r.
Qed.

Lemma join_assoc (a b c : string) : join a (join b c) = join (join a b) c.
Proof.
  destruct (startswith c "/") eqn:Ec.
  { now rewrite !(join_absolute _ c Ec). }
  destruct (startswith b "/") eqn:Eb.
  { rewrite (join_absolute a b Eb).
    apply join_absolute. rewrite (join_separator b c Ec).
    apply startswith_append_same; [intros ->; discriminate | exact Eb]. }
  rewrite (join_separator b c Ec), (join_separator a b Eb).
  destruct (String.eqb_spec b "") as [->|Hb].
  - change (separator "") with "". simpl append at 2.
    rewrite append_empty_r, !(join_separator _ c Ec), separator_closed.
    now rewrite append_assoc.
  - assert (startswith (b ++ separator b ++ c) "/" = false) as H
      by (apply startswith_append_same; assumption).
    rewrite (join_separator a _ H), (join_separator _ c Ec).
    rewrite <- (append_assoc a (separator a) b) at 2.
    rewrite separator_append, !append_assoc by exact Hb. reflexivity.
Qed.

(** *** [abspath] and [join] *)

Lemma abspath_anchored (env : Env) (path : string) :
  abspath env path = normpath (anchored env path).
Proof. reflexivity. Qed.

Lemma anchored_isabs (env : Env) (path : string) :
  isabs (getcwd env) = true -> isabs (anchored env path) = true.
Proof.
  intros H. unfold anchored.
  destruct (isabs path) eqn:E; simpl; [exact E | now apply join_isabs].
Qed.

Lemma anchored_join (env : Env) (x d : string) :
  d <> "" -> noslash d = true ->
  anchored env (join x d) = join (anchored env x) d.
Proof.
  intros Hd Hn. pose proof (noslash_startswith d Hn) as Hs.
  unfold anchored.
  assert (isabs (join x d) = isabs x) as ->.
  { unfold isabs. rewrite (join_relative x d Hs).
    destruct (String.eqb_spec x "") as [->|Hx].
    - simpl. exact Hs.
    - destruct (_ || _); now rewrite startswith_append. }
  destruct (isabs x); simpl; [reflexivity | apply join_assoc].
Qed.

(** [abspath] goes through a [join] with a plain component. *)
Lemma abspath_join (env : Env) (x d : string) :
  isabs (getcwd env) = true -> plain d = true ->
  abspath env (join x d) = join (abspath env x) d.
Proof.
  intros Hcwd Hd. destruct (plain_inv _ Hd) as (H1 & _).
  rewrite !abspath_anchored, anchored_join
    by (assumption || now apply plain_noslash).
  apply normpath_join; [now apply anchored_isabs | exact Hd].
Qed.

(** *** [expanduser] and [join] *)

Lemma expanduser_other (env : Env) (c : ascii) (r : string) :
  Ascii.eqb c tilde = false -> expanduser env (String c r) = String c r.
Proof. intros H. unfold expanduser. now rewrite H. Qed.

Lemma expanduser_isabs (env : Env) (path : string) :
  isabs path = true -> expanduser env path = path.
Proof.
  rewrite isabs_head. destruct path as [|c r]; [discriminate|].
  intros H. apply expanduser_other.
  unfold is_slash in H. apply Ascii.eqb_eq in H. subst c. reflexivity.
Qed.

(** The name after the tilde: without slash, and what follows it is empty
    or starts with a slash. *)
Lemma lsplit_slash_spec (r : string) :
  r = fst (lsplit_slash r) ++ snd (lsplit_slash r)
  /\ noslash (fst (lsplit_slash r)) = true
  /\ startswith (snd (lsplit_slash r)) "/"
     = negb (String.eqb (snd (lsplit_slash r)) "").
Proof.
  induction r as [|c r (IH1 & IH2 & IH3)]; [now repeat split|].
  cbn [lsplit_slash]. destruct (is_slash c) eqn:Ec.
  - cbn [fst snd append]. split; [reflexivity|]. split; [reflexivity|].
    rewrite startswith_slash, Ec. reflexivity.
  - destruct (lsplit_slash r) as [h t]. cbn [fst snd append noslash] in *.
    rewrite Ec. split; [now f_equal|]. now split.
Qed.

Lemma lsplit_slash_build (name rest : string) :
  noslash name = true ->
  startswith rest "/" = negb (String.eqb rest "") ->
  lsplit_slash (name ++ rest) = (name, rest).
Proof.
  intros Hn Hr. induction name as [|c name IH]; cbn [append].
  - destruct rest as [|x rest]; [reflexivity|].
    rewrite startswith_slash in Hr.
    change (negb (String.eqb (String x rest) "")) with true in Hr.
    cbn [lsplit_slash]. now rewrite Hr.
  - cbn [noslash] in Hn. apply andb_true_iff in Hn as [Hc Hn].
    apply negb_true_iff in Hc.
    cbn [lsplit_slash]. rewrite Hc, (IH Hn). reflexivity.
Qed.

Lemma rstrip_slash_endswith (h : string) :
  endswith_slash (rstrip_slash h) = false.
Proof.
  induction h as [|c h IH]; simpl; [reflexivity|].
  destruct (rstrip_slash h) as [|x r] eqn:E.
  - destruct (is_slash c) eqn:Ec; [reflexivity | exact Ec].
  - exact IH.
Qed.

Lemma noslash_append (a b : string) :
  noslash (a ++ b) = noslash a && noslash b.
Proof.
  induction a as [|c a IH]; simpl; [reflexivity|].
  now rewrite IH, andb_assoc.
Qed.

Lemma or_else_nonempty (x y : string) : x <> "" -> or_else x y = x.
Proof. destruct x; [congruence | reflexivity]. Qed.

(** [expanduser] on a path that starts with a tilde. *)
Lemma expanduser_tilde (env : Env) (r : string) :
  expanduser env (String tilde r)
  = match userhome env (fst (lsplit_slash r)) with
    | None => String tilde r
    | Some h => or_else (rstrip_slash h ++ snd (lsplit_slash r)) "/"
    end.
Proof.
  unfold expanduser, userhome. rewrite Ascii.eqb_refl.
  destruct (lsplit_slash r) as [name rest]. reflexivity.
Qed.

(** What [join] puts after a path that starts with a tilde. *)
Lemma separator_tilde (r : string) :
  separator (String tilde r)
  = if String.eqb (snd (lsplit_slash r)) "" then "/"
    else separator (snd (lsplit_slash r)).
Proof.
  destruct (lsplit_slash_spec r) as (Hr & Hname & _).
  destruct (lsplit_slash r) as [name rest]. cbn [fst snd] in *.
  assert (noslash (String tilde name) = true) as Hn by exact Hname.
  destruct (String.eqb_spec rest "") as [->|Hne].
  - rewrite append_empty_r in Hr. subst r. unfold separator.
    now rewrite (noslash_endswith _ Hn).
  - rewrite Hr. change (String tilde (name ++ rest))
      with (String tilde name ++ rest).
    now apply separator_append.
Qed.

(** [expanduser] goes through a [join] with a component that has no slash
    and does not start with a tilde. *)
Lemma expanduser_join (env : Env) (w d : string) (x : ascii) (d' : string) :
  d = String x d' -> Ascii.eqb x tilde = false -> noslash d = true ->
  expanduser env (join w d) = join (expanduser env w) d.
Proof.
  intros Hd Hx Hn.
  pose proof (noslash_startswith d Hn) as Hs.
  assert (d <> "") as Hne by (subst d; discriminate).
  rewrite (join_separator w d Hs).
  destruct w as [|c r].
  { cbn [append]. change (separator "") with "". cbn [append].
    change (expanduser env "") with "".
    rewrite (join_separator "" d Hs). cbn [append].
    change (separator "") with "". cbn [append].
    subst d. now apply expanduser_other. }
  destruct (Ascii.eqb c tilde) eqn:Ec.
  2:{ rewrite (expanduser_other env c r Ec), (join_separator _ d Hs).
      cbn [append]. now apply expanduser_other. }
  apply Ascii.eqb_eq in Ec. subst c.
  cbn [append]. rewrite !expanduser_tilde.
  pose proof (separator_tilde r) as Hsep.
  remember (separator (String tilde r)) as sep eqn:Esep.
  destruct (lsplit_slash_spec r) as (Hr & Hname & Hrest).
  destruct (lsplit_slash r) as [name rest]. cbn [fst snd] in *.
  assert (lsplit_slash (r ++ sep ++ d) = (name, rest ++ sep ++ d)) as ->.
  { rewrite Hr at 1. rewrite append_assoc.
    apply lsplit_slash_build; [exact Hname|].
    assert (rest ++ sep ++ d <> "") as Hx1.
    { intros E. apply append_eq_empty in E as [_ E].
      apply append_eq_empty in E as [_ E]. contradiction. }
    rewrite (eqb_differ _ _ Hx1).
    destruct (String.eqb rest "") eqn:E0.
    - apply String.eqb_eq in E0. rewrite E0, Hsep. cbn [append].
      now rewrite startswith_slash.
    - apply String.eqb_neq in E0. now apply startswith_append_same. }
  cbn [fst snd].
  destruct (userhome env name) as [h|].
  2:{ rewrite (join_separator _ d Hs), <- Esep. reflexivity. }
  remember (rstrip_slash h) as H eqn:EH.
  rewrite (or_else_nonempty (H ++ rest ++ sep ++ d)).
  2:{ intros E. apply append_eq_empty in E as [_ E].
      apply append_eq_empty in E as [_ E].
      apply append_eq_empty in E as [_ E]. contradiction. }
  destruct (String.eqb_spec (H ++ rest) "") as [E|Hx1].
  - rewrite E. apply append_eq_empty in E as [E1 E2].
    rewrite E1, E2 in *.
    rewrite Hsep. cbn [or_else]. rewrite (join_separator _ d Hs). reflexivity.
  - rewrite (or_else_nonempty _ "/" Hx1), (join_separator _ d Hs).
    rewrite <- (append_assoc H rest (sep ++ d)).
    apply (f_equal (append (H ++ rest))), (f_equal (fun s => s ++ d)).
    rewrite Hsep.
    destruct (String.eqb rest "") eqn:E0.
    + apply String.eqb_eq in E0. rewrite E0 in *.
      rewrite append_empty_r in Hx1 |- *. unfold separator.
      rewrite (eqb_differ _ _ Hx1), EH.
      now rewrite rstrip_slash_endswith.
    + apply String.eqb_neq in E0. symmetry. now apply separator_append.
Qed.

(** *** The directories of an instance *)

(** [abspath] after [expanduser] goes through a [join] with a plain
    component that does not start with a tilde. *)
Lemma abspath_expanduser_join (env : Env) (w d : string) (x : ascii)
    (d' : string) :
  isabs (getcwd env) = true -> plain d = true ->
  d = String x d' -> Ascii.eqb x tilde = false ->
  abspath env (expanduser env (join w d))
  = join (abspath env (expanduser env w)) d.
Proof.
  intros Hcwd Hp Hd Hx.
  rewrite (expanduser_join env w d x d' Hd Hx (plain_noslash _ Hp)).
  now apply abspath_join.
Qed.

Lemma abspath_absolute (env : Env) (z : string) :
  isabs z = true -> abspath env z = normpath z.
Proof. intros H. unfold abspath. now rewrite H. Qed.

Lemma abspath_expanduser_normalised (env : Env) (z : string) :
  isabs z = true -> abspath env (expanduser env (normpath z)) = normpath z.
Proof.
  intros Hz. pose proof (normpath_isabs z Hz) as Hn.
  rewrite (expanduser_isabs env _ Hn), (abspath_absolute env _ Hn).
  now apply normpath_idempotent.
Qed.

Lemma abspath_expanduser_idempotent (env : Env) (x : string) :
  isabs (getcwd env) = true ->
  abspath env (expanduser env (abspath env (expanduser env x)))
  = abspath env (expanduser env x).
Proof.
  intros Hcwd. rewrite (abspath_anchored env (expanduser env x)).
  apply abspath_expanduser_normalised. now apply anchored_isabs.
Qed.

Lemma abspath_dot (env : Env) :
  isabs (getcwd env) = true -> abspath env "." = normpath (getcwd env).
Proof. intros Hcwd. unfold abspath. simpl. now apply normpath_join_dot. Qed.

(** *** [dirname] and [basename] of a joined name *)

Lemma rsplit_slash_noslash (b : string) :
  noslash b = true -> rsplit_slash b = ("", b).
Proof.
  induction b as [|c b IH]; cbn [rsplit_slash noslash]; [reflexivity|].
  intros H. apply andb_true_iff in H as [H1 H2].
  rewrite (IH H2). apply negb_true_iff in H1. now rewrite H1.
Qed.

Lemma rsplit_slash_last (a b : string) :
  noslash b = true ->
  rsplit_slash (a ++ String slash b) = (a ++ String slash "", b).
Proof.
  intros Hb. induction a as [|c a IH]; cbn [append rsplit_slash].
  - now rewrite (rsplit_slash_noslash b Hb).
  - rewrite IH. destruct (is_slash c); [reflexivity|].
    destruct (a ++ String slash "") eqn:E; [|reflexivity].
    destruct a; discriminate.
Qed.

Lemma join_last_slash (a b : string) :
  a <> "" -> noslash b = true ->
  exists z, join a b = z ++ String slash b
            /\ z ++ String slash "" = a ++ separator a.
Proof.
  intros Ha Hb. rewrite (join_separator a b (noslash_startswith b Hb)).
  unfold separator. rewrite (eqb_differ _ _ Ha). simpl orb.
  destruct (endswith_slash a) eqn:E.
  - destruct (endswith_slash_split a E) as [z ->]. exists z.
    rewrite !append_assoc. split; reflexivity.
  - exists a. split; reflexivity.
Qed.

(** The last component of a joined name is the component joined on. *)
Lemma basename_join (a b : string) :
  noslash b = true -> basename (join a b) = b.
Proof.
  intros Hb. unfold basename.
  destruct (String.eqb_spec a "") as [->|Ha].
  - rewrite (join_separator "" b (noslash_startswith b Hb)).
    cbn [append]. change (separator "") with "". cbn [append].
    now rewrite (rsplit_slash_noslash b Hb).
  - destruct (join_last_slash a b Ha Hb) as (z & -> & _).
    now rewrite (rsplit_slash_last z b Hb).
Qed.

Lemma all_slashes_append (a b : string) :
  all_slashes (a ++ b) = all_slashes a && all_slashes b.
Proof.
  induction a as [|c a IH]; cbn [append all_slashes]; [reflexivity|].
  now rewrite IH, andb_assoc.
Qed.

Lemma all_slashes_endswith (a : string) :
  a <> "" -> all_slashes a = true -> endswith_slash a = true.
Proof.
  induction a as [|c a IH]; [congruence|]. intros _.
  cbn [all_slashes]. intros H. apply andb_true_iff in H as [H1 H2].
  destruct a as [|c' a]; [exact H1|].
  change (endswith_slash (String c (String c' a)))
    with (endswith_slash (String c' a)).
  apply IH; [discriminate | exact H2].
Qed.

Lemma rstrip_slash_open (a : string) :
  endswith_slash a = false -> rstrip_slash a = a.
Proof.
  induction a as [|c a IH]; [reflexivity|].
  destruct a as [|c' a].
  - cbn [endswith_slash rstrip_slash]. now intros ->.
  - change (endswith_slash (String c (String c' a)))
      with (endswith_slash (String c' a)).
    intros H. cbn [rstrip_slash] in IH |- *. rewrite (IH H). reflexivity.
Qed.

Lemma rstrip_slash_one (a : string) :
  rstrip_slash (a ++ String slash "") = rstrip_slash a.
Proof.
  induction a as [|c a IH]; [reflexivity|].
  cbn [append rstrip_slash]. now rewrite IH.
Qed.

(** The directory of a joined name is the directory joined onto, when that
    one either is made of slashes only or does not end with one. *)
Lemma dirname_join (a b : string) :
  a <> "" -> all_slashes a = endswith_slash a -> noslash b = true ->
  dirname (join a b) = a.
Proof.
  intros Ha Hs Hb. unfold dirname.
  destruct (join_last_slash a b Ha Hb) as (z & -> & Hz).
  rewrite (rsplit_slash_last z b Hb). cbn [fst]. rewrite Hz.
  unfold separator. rewrite (eqb_differ _ _ Ha). simpl orb.
  destruct (endswith_slash a) eqn:E.
  - rewrite append_empty_r, Hs, andb_false_r. reflexivity.
  - rewrite all_slashes_append, Hs. simpl andb.
    assert (String.eqb (a ++ "/") "" = false) as ->
      by (apply String.eqb_neq; destruct a; discriminate).
    simpl. change "/" with (String slash "").
    now rewrite rstrip_slash_one, rstrip_slash_open.
Qed.

(** A normalised absolute path is made of slashes only or does not end
    with one. *)
Lemma normpath_shape (z : string) :
  isabs z = true ->
  normpath z <> ""
  /\ all_slashes (normpath z) = endswith_slash (normpath z).
Proof.
  intros Hz. pose proof (normpath_isabs z Hz) as Ha. split.
  { intros E. rewrite E in Ha. discriminate. }
  rewrite (normpath_abs z Hz).
  pose proof (norm_comps_plain z Hz) as Hcs.
  assert (initial_slashes z <> 0) as Hn
    by (destruct (initial_slashes_abs _ Hz); lia).
  assert (all_slashes (repeat_slash (initial_slashes z)) = true) as Hr.
  { clear. induction (initial_slashes z); [reflexivity | exact IHn]. }
  destruct (norm_comps z) as [|c cs].
  - simpl join_slash. rewrite append_empty_r, Hr.
    symmetry. now apply repeat_slash_endswith.
  - assert (join_slash (c :: cs) <> "") as Hne.
    { inversion Hcs as [|? ? Hc _]; subst.
      destruct (plain_inv _ Hc) as (H & _).
      destruct c; [congruence|]. destruct cs; discriminate. }
    rewrite (endswith_slash_append _ _ Hne), (join_slash_endswith _ Hcs).
    rewrite all_slashes_append, Hr. simpl andb.
    destruct (all_slashes (join_slash (c :: cs))) eqn:E; [|reflexivity].
    rewrite <- (join_slash_endswith _ Hcs).
    symmetry. now apply all_slashes_endswith.
Qed.

Lemma dirname_join_normalised (z b : string) :
  isabs z = true -> noslash b = true ->
  dirname (join (normpath z) b) = normpath z.
Proof.
  intros Hz Hb. destruct (normpath_shape z Hz) as [H1 H2].
  now apply dirname_join.
Qed.

(** *** Canonical names *)

Lemma normpath_canonical (z : string) :
  isabs z = true -> canonical (normpath z).
Proof.
  intros Hz. split; [now apply normpath_isabs | now apply normpath_idempotent].
Qed.

Lemma join_canonical (z b : string) :
  isabs z = true -> plain b = true -> canonical (join (normpath z) b).
Proof.
  intros Hz Hb. pose proof (normpath_isabs z Hz) as Hn. split.
  - now apply join_isabs.
  - rewrite (normpath_join _ _ Hn Hb). now rewrite normpath_idempotent.
Qed.

Lemma join_append_tail (w b t : string) :
  b <> "" -> startswith b "/" = false -> join w (b ++ t) = join w b ++ t.
Proof.
  intros Hb Hs.
  rewrite (join_separator w b Hs), (join_separator w (b ++ t))
    by now rewrite startswith_append.
  now rewrite !append_assoc.
Qed.

(** *** Cancelling in [++] *)

Lemma append_inv_tail (a b t : string) : a ++ t = b ++ t -> a = b.
Proof.
  revert b. induction a as [|c a IH]; intros [|c' b] H.
  - reflexivity.
  - exfalso. apply (f_equal String.length) in H.
    rewrite !length_append in H. simpl in H. lia.
  - exfalso. apply (f_equal String.length) in H.
    rewrite !length_append in H. simpl in H. lia.
  - cbn [append] in H. injection H as -> H. f_equal. auto.
Qed.

End NormFacts.

(** ** More on cells *)

Module CellFacts.
Import Numeric Rasters Program NumericFacts.
Local Open Scope Q_scope.

Lemma Qltb_false_inv (x y : Q) : Qltb x y = false -> y <= x.
Proof.
  unfold Qltb. intros H. apply negb_false_iff in H. now apply Qle_bool_iff.
Qed.

Lemma Qltb_true_inv (x y : Q) : Qltb x y = true -> x < y.
Proof.
  unfold Qltb. intros H. apply negb_true_iff in H.
  apply Qnot_le_lt. intros Hle. apply Qle_bool_iff in Hle. congruence.
Qed.

(** The clamp of a number lies between the bounds. *)
Lemma cell_clip_fin (x lo hi : Q) :
  lo <= hi -> exists q, cell_clip (Fin x) lo hi = Fin q /\ lo <= q <= hi.
Proof.
  intros Hb. unfold cell_clip, cell_maximum.
  destruct (Qltb x lo) eqn:E1; unfold cell_minimum.
  - rewrite (Qltb_false hi lo Hb). exists lo. split; [reflexivity | lra].
  - apply Qltb_false_inv in E1.
    destruct (Qltb hi x) eqn:E2.
    + exists hi. split; [reflexivity | lra].
    + apply Qltb_false_inv in E2. exists x. split; [reflexivity | lra].
Qed.

(** What the value transform gives: the missing-value marker, or a number
    from 0 to 1. *)
Lemma transform_cell_range (v : cell) :
  transform_cell v = NaN
  \/ exists q, transform_cell v = Fin q /\ 0 <= q <= 1.
Proof.
  unfold transform_cell.
  destruct (cell_eqb v sentinel); [now left|].
  destruct v as [| | |x].
  - now left.
  - right. exists 0. split; [reflexivity | lra].
  - right. exists 1. split; [reflexivity | lra].
  - right. rewrite cell_div_hundred. apply cell_clip_fin. lra.
Qed.

(** It gives the marker for the sentinel and for the marker, and for
    nothing else. *)
Lemma transform_cell_nan (v : cell) :
  transform_cell v = NaN <-> v = NaN \/ cell_eqb v sentinel = true.
Proof.
  unfold transform_cell.
  destruct (cell_eqb v sentinel) eqn:E; [intuition|].
  destruct v as [| | |x].
  - intuition.
  - split; [discriminate | intros [H|H]; discriminate].
  - split; [discriminate | intros [H|H]; discriminate].
  - rewrite cell_div_hundred.
    destruct (cell_clip_fin (x / 100) 0 1) as (q & -> & _); [lra|].
    split; [discriminate | intros [H|H]; discriminate].
Qed.

(** Below 0 it gives 0; above 100, the sentinel apart, it gives 1. *)
Lemma transform_cell_below (x : Q) : x < 0 -> transform_cell (Fin x) = Fin 0.
Proof.
  intros H. unfold transform_cell, sentinel, cell_eqb.
  rewrite Qeq_bool_false by (intros E; rewrite E in H; lra).
  rewrite cell_div_hundred. apply cell_clip_below; [|lra].
  apply Qlt_shift_div_r; lra.
Qed.

Lemma transform_cell_above (x : Q) :
  100 < x -> ~ x == 255 -> transform_cell (Fin x) = Fin 1.
Proof.
  intros H Hne. unfold transform_cell, sentinel, cell_eqb.
  rewrite Qeq_bool_false by exact Hne.
  rewrite cell_div_hundred.
  destruct (div_hundred_bounds x) as (_ & _ & Hgt).
  apply cell_clip_above; [specialize (Hgt H); lra | exact (Hgt H)].
Qed.

(** What an accessor makes of a value: the marker, or a number from 0 to
    1. *)
Lemma returned_cell_range {Geometry : Type} (raw : Raster Geometry)
    (v : cell) :
  returned_cell raw v = NaN
  \/ exists q, returned_cell raw v = Fin q /\ 0 <= q <= 1.
Proof.
  unfold returned_cell.
  destruct (declared_missing raw v); [now left | apply transform_cell_range].
Qed.

(** It makes the marker of the marker, of the sentinel and of the declared
    missing value, and of nothing else. *)
Lemma returned_cell_nan {Geometry : Type} (raw : Raster Geometry)
    (v : cell) :
  returned_cell raw v = NaN
  <-> v = NaN \/ cell_eqb v sentinel = true \/ declared_missing raw v = true.
Proof.
  unfold returned_cell. destruct (declared_missing raw v).
  - split; auto.
  - rewrite transform_cell_nan.
    split; [intros [H|H]; auto | intros [H|[H|H]]; auto; discriminate].
Qed.

End CellFacts.

(** ** More on runs *)

Module RunFacts.
Import PyStr PosixPath Numeric Rasters OS Program.
Import PathFacts OSFacts ProgramFacts.

(** The errors of the file system are not the raster package's. *)
Lemma missing_dirs_error (n : nat) (st : state) (c d : string) (e : exn) :
  missing_dirs n st c d = inl e -> is_RasterError e = false.
Proof.
  revert c d. induction n as [|n IH]; intros c d; simpl; [discriminate|].
  destruct (String.eqb d ""); [discriminate|].
  destruct (stat st d) as [[x|]|]; try discriminate.
  - now intros [= <-].
  - destruct (missing_dirs n st d (dirname d)) eqn:E; [|discriminate].
    intros [= <-]. exact (IH _ _ E).
Qed.

Lemma makedirs_error (d : string) (st : state) (e : exn) :
  makedirs d st = inl e -> is_RasterError e = false.
Proof.
  unfold makedirs. destruct (String.eqb d ""); [now intros [= <-]|].
  destruct (stat st d) as [[x|]|]; [now intros [= <-]| |];
    destruct (missing_dirs _ st d d) eqn:E; try discriminate;
    intros [= <-]; exact (missing_dirs_error _ _ _ _ _ E).
Qed.

Lemma rename_error (src dst : string) (st : state) (e : exn) :
  rename src dst st = inl e -> is_RasterError e = false.
Proof.
  unfold rename. destruct (stat st src) as [n|]; [|now intros [= <-]].
  unfold check_parent.
  destruct (String.eqb dst ""); [now intros [= <-]|].
  destruct (String.eqb (dirname dst) "").
  - destruct n, (stat st dst) as [[x|]|]; try discriminate;
      try (now intros [= <-]).
    destruct (under src dst); [now intros [= <-] | discriminate].
  - destruct (stat st (dirname dst)) as [[y|]|]; try (now intros [= <-]).
    destruct n, (stat st dst) as [[x|]|]; try discriminate;
      try (now intros [= <-]).
    destruct (under src dst); [now intros [= <-] | discriminate].
Qed.

Lemma move_error (src dst : string) (st : state) (e : exn) :
  move src dst st = inl e -> is_RasterError e = false.
Proof.
  unfold move. destruct (isdir st dst).
  - destruct (String.eqb src dst); [discriminate|].
    destruct (exists_ st _); [now intros [= <-] | apply rename_error].
  - apply rename_error.
Qed.


Section WithCollaborators.

Variable Geometry : Type.
Variable system : string -> OS.state -> Z * OS.state.
Variable Raster_open :
  (string -> option node) -> string -> option Geometry -> string ->
  string + Raster Geometry.

Local Abbreviation State := (State Geometry).
Local Abbreviation download_file := (download_file Geometry system).
Local Abbreviation accessor := (accessor Geometry system Raster_open).

Lemma download_file_error (URL f : string) (s s' : State) (e : exn) :
  download_file URL f s = (s', inl e) -> is_RasterError e = false.
Proof.
  rewrite download_file_unfold.
  destruct (exists_ (os s) f); [discriminate|]. simpl.
  destruct (makedirs (dirname f) (os s)) as [e1|o1] eqn:Em.
  { intros [= _ <-]. exact (makedirs_error _ _ _ Em). }
  destruct (exists_ _ (f ++ ".download")); [|now intros [= _ <-]].
  destruct (move (f ++ ".download") f _) as [e2|o3] eqn:Ev; [|discriminate].
  intros [= _ <-]. exact (move_error _ _ _ _ Ev).
Qed.



(** What an accessor returns is the transform of a raster that the open
    gave on the file system the call leaves. *)
Lemma accessor_returns_some (P : product) (g : option Geometry)
    (r : option string) (s s' : State) (out : Image Geometry) :
  accessor P g r s = (s', inr out) ->
  exists raw,
    Raster_open (files (os s')) (product_filename (self s) P) g
      (effective_resampling (self s) r) = inr raw
    /\ out = transform raw.
Proof.
  rewrite accessor_unfold, product_filename_join. unfold Program.get.
  destruct (Program.obtain _ _ _ _ _) as [s1 [e|u]]; [discriminate|].
  destruct (Raster_open (files (os s1)) _ _ _) as [msg|raw] eqn:E;
    [discriminate|].
  intros [= <- <-]. exists raw. now split.
Qed.

(** An accessor fails with the error of [download_file] when that fails,
    in the state [download_file] leaves. *)
Lemma accessor_download_error (P : product) (g : option Geometry)
    (r : option string) (s s1 : State) (e : exn) :
  exists_ (os s) (product_filename (self s) P) = false ->
  download_file (product_URL P) (product_filename (self s) P) s = (s1, inl e) ->
  accessor P g r s = (s1, inl e).
Proof.
  rewrite accessor_unfold, product_filename_join.
  unfold Program.get, Program.obtain. intros -> ->. reflexivity.
Qed.

(** An accessor that fails with the raster package's error has its file
    in place. *)
Lemma accessor_raster_error (P : product) (g : option Geometry)
    (r : option string) (s s1 : State) (msg : string) :
  accessor P g r s = (s1, inl (RasterError msg)) ->
  exists_ (os s1) (product_filename (self s) P) = true /\ self s1 = self s.
Proof.
  rewrite accessor_unfold, product_filename_join.
  unfold Program.get, Program.obtain.
  destruct (exists_ (os s) _) eqn:Ex.
  - destruct (Raster_open _ _ _ _); [|discriminate].
    intros [= <- _]. now split.
  - pose proof (download_file_self _ system (product_URL P)
        (join (source_directory (self s)) (basename (product_URL P))) s)
      as Hself.
    destruct (Program.download_file _ _ _ _ _) as [s' [e|x]] eqn:Ed.
    + intros [= _ ->]. now apply download_file_error in Ed.
    + simpl in Hself.
      destruct (download_file_returns _ _ _ _ _ _ _ Ex Ed) as (_ & Hf & _).
      destruct (Raster_open _ _ _ _); [|discriminate].
      intros [= <- _]. simpl. now split.
Qed.

End WithCollaborators.
End RunFacts.

(** ** The value transform, the cache and the errors *)

Section Coverage.
Import PyStr PosixPath Numeric Rasters OS Program.
Import PathFacts OSFacts NumericFacts ProgramFacts CellFacts RunFacts.

Variable Geometry : Type.
Variable system : string -> OS.state -> Z * OS.state.
Variable Raster_open :
  (string -> option node) -> string -> option Geometry -> string ->
  string + Raster Geometry.

Local Abbreviation State := (State Geometry).
Local Abbreviation download_file := (download_file Geometry system).
Local Abbreviation accessor := (accessor Geometry system Raster_open).

(** X1. Every cell of what [FC] or [WP] returns is the missing-value
    marker or a number from 0 to 1, whatever the opened raster holds. *)
Theorem returned_cells_in_unit_interval (P : product) (g : option Geometry)
    (r : option string) (s s' : State) (out : Image Geometry)
    (i j : nat) (c : cell) :
  accessor P g r s = (s', inr out) ->
  cell_at (cells out) i j = Some c ->
  c = NaN \/ exists q, c = Fin q /\ (0 <= q)%Q /\ (q <= 1)%Q.
Proof.
  intros Hrun Hc.
  destruct (accessor_returns_some _ _ _ _ _ _ _ _ _ Hrun) as (raw & _ & ->).
  rewrite cells_transform, cell_at_map in Hc.
  destruct (cell_at (array raw) i j) as [v|]; [|discriminate].
  injection Hc as <-.
  destruct (returned_cell_range raw v) as [H|(q & H & Hq)]; [now left|].
  right. exists q. tauto.
Qed.

(** X2. A cell of what [FC] or [WP] returns is the missing-value marker
    exactly when the cell of the opened raster is that marker, equals 255,
    or equals the value that the opened raster declares as missing. *)
Theorem missing_only_from_sentinel (P : product) (g : option Geometry)
    (r : option string) (s s' : State) (out : Image Geometry)
    (raw : Raster Geometry) (i j : nat) (v : cell) :
  accessor P g r s = (s', inr out) ->
  Raster_open (files (os s')) (product_filename (self s) P) g
    (effective_resampling (self s) r) = inr raw ->
  cell_at (array raw) i j = Some v ->
  cell_at (cells out) i j = Some NaN
  <-> (v = NaN \/ cell_eqb v (Fin 255) = true
       \/ declared_missing raw v = true).
Proof.
  intros Hrun Hopen Hcell.
  rewrite (accessor_returns _ _ _ P g r s s' out raw Hrun Hopen).
  rewrite cells_transform, cell_at_map, Hcell. simpl.
  rewrite <- (returned_cell_nan raw v).
  split; [now intros [= ->] | now intros ->].
Qed.

(** X3. What [FC] or [WP] returns has a cell wherever, and only where, the
    opened raster has one. It is a raster with the geometry of the opened
    one, unless the opened raster has exactly one cell: then it is a bare
    array without geometry. *)
Theorem shape_and_geometry_kept (P : product) (g : option Geometry)
    (r : option string) (s s' : State) (out : Image Geometry)
    (raw : Raster Geometry) :
  accessor P g r s = (s', inr out) ->
  Raster_open (files (os s')) (product_filename (self s) P) g
    (effective_resampling (self s) r) = inr raw ->
  List.length (cells out) = List.length (array raw)
  /\ (forall i j, cell_at (cells out) i j = None
                  <-> cell_at (array raw) i j = None)
  /\ (size (array raw) <> 1%nat ->
      exists image, out = as_raster image /\ geometry image = geometry raw)
  /\ (size (array raw) = 1%nat -> out = as_ndarray (cells out)).
Proof.
  intros Hrun Hopen.
  rewrite (accessor_returns _ _ _ P g r s s' out raw Hrun Hopen).
  split; [|split; [|split]].
  - rewrite cells_transform. apply length_map.
  - intros i j. rewrite cells_transform, cell_at_map.
    destruct (cell_at (array raw) i j); simpl; split; congruence.
  - intros Hsize. apply Nat.eqb_neq in Hsize.
    rewrite raster_pipeline, Hsize. eexists. split; reflexivity.
  - intros Hsize. apply Nat.eqb_eq in Hsize.
    rewrite raster_pipeline, Hsize. reflexivity.
Qed.

(** X4. Of the numbers, only 255 and the declared missing value are taken
    for missing: any other number below 0 in the opened raster gives 0 and
    any other number above 255 gives 1. *)
Theorem out_of_range_values_clamped (P : product) (g : option Geometry)
    (r : option string) (s s' : State) (out : Image Geometry)
    (raw : Raster Geometry) (i j : nat) (v : Q) :
  accessor P g r s = (s', inr out) ->
  Raster_open (files (os s')) (product_filename (self s) P) g
    (effective_resampling (self s) r) = inr raw ->
  cell_at (array raw) i j = Some (Fin v) ->
  declared_missing raw (Fin v) = false ->
  ((v < 0)%Q -> cell_at (cells out) i j = Some (Fin 0))
  /\ ((255 < v)%Q -> cell_at (cells out) i j = Some (Fin 1)).
Proof.
  intros Hrun Hopen Hcell Hdecl.
  rewrite (accessor_returns _ _ _ P g r s s' out raw Hrun Hopen).
  rewrite cells_transform, cell_at_map, Hcell. simpl.
  unfold returned_cell. rewrite Hdecl.
  split; intros Hv; f_equal.
  - now apply transform_cell_below.
  - apply transform_cell_above; [lra|].
    intros E. rewrite E in Hv. lra.
Qed.

(** X5. Whenever [download_file] returns, for any file name, present
    before or not, it returns that file name, the file exists and the
    instance is as it was. *)
Theorem download_file_returns_its_target (URL f x : string) (s s' : State) :
  download_file URL f s = (s', inr x) ->
  x = f /\ exists_ (os s') f = true /\ self s' = self s.
Proof.
  intros Hrun.
  pose proof (download_file_self _ system URL f s) as Hself.
  rewrite Hrun in Hself. simpl in Hself.
  destruct (exists_ (os s) f) eqn:Ex.
  - revert Hrun. rewrite download_file_unfold, Ex.
    intros [= <- <-]. simpl. now repeat split.
  - destruct (download_file_returns _ _ _ _ _ _ _ Ex Hrun) as (-> & H & _).
    now repeat split.
Qed.

(** X6. One call invokes the transfer command once at most: there is no
    retry inside [download_file], [FC] or [WP]. *)
Theorem one_transfer_at_most (URL f : string) (P : product)
    (g : option Geometry) (r : option string) (s : State) :
  (transfers (trace (fst (download_file URL f s)))
   <= transfers (trace s) + 1)%nat
  /\ (transfers (trace (fst (accessor P g r s)))
      <= transfers (trace s) + 1)%nat.
Proof.
  assert (forall URL f s,
             (transfers (trace (fst (download_file URL f s)))
              <= transfers (trace s) + 1)%nat) as Hd.
  { clear. intros URL f s. rewrite download_file_unfold.
    destruct (exists_ (os s) f); [simpl; lia|]. simpl.
    destruct (makedirs (dirname f) (os s)) as [e|o1].
    { simpl. rewrite transfers_app. unfold transfers at 2. simpl. lia. }
    destruct (exists_ _ (f ++ ".download")).
    - destruct (move (f ++ ".download") f _); simpl;
        rewrite !transfers_app; unfold transfers at 2 3 4; simpl; lia.
    - simpl. rewrite !transfers_app. unfold transfers at 2 3. simpl. lia. }
  split; [apply Hd|].
  rewrite accessor_unfold. unfold Program.get, Program.obtain.
  destruct (exists_ (os s) _).
  - destruct (Raster_open _ _ _ _); simpl; rewrite transfers_open; lia.
  - specialize (Hd (product_URL P)
        (join (source_directory (self s)) (basename (product_URL P))) s).
    destruct (Program.download_file _ _ _ _ _) as [s1 [e|x]]; simpl in *;
      [exact Hd|].
    destruct (Raster_open _ _ _ _); simpl; rewrite transfers_open; exact Hd.
Qed.

(** X7. Once the transfer command has been invoked, [download_file] logs
    the completed download with the elapsed time, before it looks for the
    output: the log is the same whether the transfer left a file or
    not. *)
Theorem completed_logged_whatever_the_outcome (URL f : string) (s : State)
    (o1 o2 : OS.state) (status : Z) :
  exists_ (os s) f = false ->
  makedirs (dirname f) (os s) = inr o1 ->
  system (wget_command (f ++ ".download") URL) o1 = (status, o2) ->
  log (fst (download_file URL f s))
  = (log s ++ [downloading URL f;
               completed_download (clock o2 - clock o1) f])%list.
Proof.
  intros Habs Hmk Hsys.
  rewrite download_file_unfold, Habs, Hmk. simpl. rewrite Hsys. simpl.
  destruct (exists_ o2 (f ++ ".download")).
  - destruct (move (f ++ ".download") f o2); simpl;
      now rewrite <- app_assoc.
  - simpl. now rewrite <- app_assoc.
Qed.

(** X8. With a regular file where the directory of the target should be,
    [download_file] raises the file-exists error of the directory
    creation; the transfer command is not invoked and the file system is
    untouched. *)
Theorem file_in_place_of_directory (URL f content : string) (s : State) :
  stat (os s) (dirname f) = Some (File content) ->
  exists_ (os s) f = false ->
  exists s',
    download_file URL f s = (s', inl (FileExistsError (dirname f)))
    /\ os s' = os s
    /\ transfers (trace s') = transfers (trace s).
Proof.
  intros Hd Habs. rewrite download_file_unfold, Habs. simpl.
  assert (makedirs (dirname f) (os s) = inl (FileExistsError (dirname f)))
    as ->.
  { unfold makedirs.
    destruct (String.eqb_spec (dirname f) "") as [E|_].
    - rewrite E in Hd. discriminate.
    - now rewrite Hd. }
  eexists. split; [reflexivity|]. split; [reflexivity|]. simpl.
  rewrite transfers_app. unfold transfers at 2. simpl. lia.
Qed.


(** X10. If the file of a product is absent and the transfer leaves no
    output, [FC] and [WP] raise the I/O error that names the URL of the
    product, and the raster is never opened: the calls made are the
    directory creation and the transfer. *)
Theorem failed_download_skips_open (P : product) (g : option Geometry)
    (r : option string) (s : State) (o1 o2 : OS.state) (status : Z) :
  let URL := product_URL P in
  let f := product_filename (self s) P in
  exists_ (os s) f = false ->
  makedirs (dirname f) (os s) = inr o1 ->
  system (wget_command (f ++ ".download") URL) o1 = (status, o2) ->
  exists_ o2 (f ++ ".download") = false ->
  snd (accessor P g r s) = inl (IOError ("unable to download URL: " ++ URL))
  /\ trace (fst (accessor P g r s))
     = (trace s
        ++ [call_makedirs (dirname f);
            call_system (wget_command (f ++ ".download") URL)])%list.
Proof.
  intros URL f Habs Hmk Hsys Hpart.
  destruct (download_file URL f s) as [s1 res] eqn:Erun.
  assert (res = inl (IOError ("unable to download URL: " ++ URL))
          /\ trace s1
             = (trace s
                ++ [call_makedirs (dirname f);
                    call_system (wget_command (f ++ ".download") URL)])%list)
    as [-> Ht].
  { revert Erun. rewrite download_file_unfold, Habs, Hmk. simpl.
    rewrite Hsys. simpl. rewrite Hpart. intros [= <- <-]. simpl.
    now rewrite <- app_assoc. }
  rewrite (accessor_download_error _ system Raster_open P g r s s1 _
             Habs Erun).
  now split.
Qed.

(** X11. A file that the raster package cannot open stays in the cache:
    after [FC] or [WP] has failed with the package's error, the file of the
    product exists, and no later call of that accessor invokes the
    transfer. *)
Theorem unreadable_file_not_fetched_again (P : product)
    (g g' : option Geometry) (r r' : option string) (s s1 : State)
    (msg : string) :
  accessor P g r s = (s1, inl (RasterError msg)) ->
  exists_ (os s1) (product_filename (self s1) P) = true
  /\ transfers (trace (fst (accessor P g' r' s1))) = transfers (trace s1).
Proof.
  intros Hrun.
  destruct (accessor_raster_error _ _ _ _ _ _ _ _ _ Hrun) as (Hf & Hself).
  rewrite <- Hself in Hf. split; [exact Hf|].
  rewrite accessor_cache_hit by exact Hf. simpl. apply transfers_open.
Qed.

(** X12. Nothing is kept in memory between calls: after [FC] or [WP] has
    returned a raster, the same call again opens the file once more, with
    the same arguments, and returns the same raster. *)
Theorem repeated_call_same_raster (P : product) (g : option Geometry)
    (r : option string) (s s1 : State) (out : Image Geometry) :
  accessor P g r s = (s1, inr out) ->
  accessor P g r s1
  = (record _ (call_open (product_filename (self s1) P) g
                 (effective_resampling (self s1) r)) s1,
     inr out).
Proof.
  intros Hrun.
  pose proof (accessor_leaves_file _ _ _ _ _ _ _ _ _ Hrun) as Hf.
  pose proof (accessor_self _ system Raster_open P g r s) as Hself.
  rewrite Hrun in Hself. simpl in Hself.
  destruct (accessor_returns_some _ _ _ _ _ _ _ _ _ Hrun)
    as (raw & Hopen & ->).
  rewrite <- Hself in Hf, Hopen.
  rewrite accessor_unfold. rewrite product_filename_join in *.
  unfold Program.get, Program.obtain. rewrite Hf, Hopen. reflexivity.
Qed.

(** X13. The two products never share a file: for every instance the file
    names of the two differ, and neither is the temporary name of the
    other. *)
Theorem product_files_distinct (self : SoilGrids) :
  FC_filename self <> WP_filename self
  /\ FC_filename self <> WP_filename self ++ ".download"
  /\ WP_filename self <> FC_filename self ++ ".download".
Proof.
  unfold FC_filename, WP_filename, join.
  change (startswith (basename FC_URL) "/") with false.
  change (startswith (basename WP_URL) "/") with false.
  cbv iota.
  destruct (String.eqb (source_directory self) ""
            || endswith_slash (source_directory self));
    rewrite ?append_assoc; repeat split; intros H;
    repeat apply append_inv_head in H; vm_compute in H; discriminate.
Qed.

(** X14. The temporary name of a download lies in the directory of its
    target, so the final move is a rename within one directory; its base
    name is that of the target with [.download] appended. *)
Theorem temporary_file_is_sibling (f : string) :
  dirname (f ++ ".download") = dirname f
  /\ basename (f ++ ".download") = basename f ++ ".download".
Proof.
  unfold dirname, basename.
  rewrite rsplit_slash_append_tail by reflexivity. now split.
Qed.

End Coverage.

(** ** The instance and its file names *)

Section Instances.
Import PyStr PosixPath PathShape Program.
Import PathFacts AbsFacts NormFacts.

(** X16. Without a source directory the instance downloads into
    [SoilGrids_download] directly below its stored working directory,
    whatever working directory it was given: a relative one, one with a
    tilde, one that is not normalised, or none. *)
Theorem default_source_directory (env : Env) (wd : option string)
    (r : string) :
  isabs (getcwd env) = true ->
  source_directory (__init__ env wd None r)
  = join (working_directory (__init__ env wd None r))
      DEFAULT_DOWNLOAD_DIRECTORY.
Proof.
  intros Hcwd. unfold __init__. cbn [source_directory working_directory].
  apply (abspath_expanduser_join env _ DEFAULT_DOWNLOAD_DIRECTORY "S"
           "oilGrids_download" Hcwd); reflexivity.
Qed.

(** X17. Without a working directory the instance works in the current
    directory, normalised; the home directory plays no part. *)
Theorem default_working_directory (env : Env) (sd : option string)
    (r : string) :
  isabs (getcwd env) = true ->
  working_directory (__init__ env None sd r) = normpath (getcwd env).
Proof.
  intros Hcwd. unfold __init__. cbn [working_directory].
  change (expanduser env DEFAULT_WORKING_DIRECTORY) with ".".
  rewrite (abspath_dot env Hcwd).
  now apply abspath_expanduser_normalised.
Qed.

(** X18. The file of a product lies directly in the source directory of the
    instance, under the last component of the product's URL: the directory
    that [download_file] makes for it is the source directory itself. *)
Theorem product_file_in_source_directory (env : Env)
    (wd sd : option string) (r : string) (P : product) :
  isabs (getcwd env) = true ->
  dirname (product_filename (__init__ env wd sd r) P)
  = source_directory (__init__ env wd sd r)
  /\ basename (product_filename (__init__ env wd sd r) P)
     = basename (product_URL P).
Proof.
  intros Hcwd.
  assert (product_filename (__init__ env wd sd r) P
          = join (source_directory (__init__ env wd sd r))
              (basename (product_URL P))) as -> by (destruct P; reflexivity).
  assert (noslash (basename (product_URL P)) = true) as Hb
    by (destruct P; vm_compute; reflexivity).
  split; [|now apply basename_join].
  unfold __init__. cbn [source_directory]. rewrite abspath_anchored.
  apply dirname_join_normalised; [now apply anchored_isabs | exact Hb].
Qed.

(** X19. The stored directories are in their final form: an instance made
    from the attributes of an instance is that instance. *)
Theorem instance_from_its_attributes (env : Env) (wd sd : option string)
    (r : string) :
  isabs (getcwd env) = true ->
  __init__ env
    (Some (working_directory (__init__ env wd sd r)))
    (Some (source_directory (__init__ env wd sd r)))
    (resampling (__init__ env wd sd r))
  = __init__ env wd sd r.
Proof.
  intros Hcwd. unfold __init__.
  cbn [working_directory source_directory resampling].
  now rewrite !abspath_expanduser_idempotent.
Qed.

(** X20. The text of [__repr__] tells the source directory and nothing
    else: two instances print alike exactly when their source directories
    are equal. *)
Theorem repr_tells_source_directory (a b : SoilGrids) :
  __repr__ a = __repr__ b <-> source_directory a = source_directory b.
Proof.
  unfold __repr__. split; [|now intros ->].
  intros H. do 2 apply append_inv_head in H.
  now apply append_inv_tail in H.
Qed.

(** X21. The names that an instance made by [__init__] hands to the file
    system are canonical, each in the one spelling [abspath] gives: its
    source directory, the file of either product and the temporary name of
    that file. *)
Theorem product_names_canonical (env : Env) (wd sd : option string)
    (r : string) (P : product) :
  isabs (getcwd env) = true ->
  canonical (source_directory (__init__ env wd sd r))
  /\ canonical (product_filename (__init__ env wd sd r) P)
  /\ canonical (product_filename (__init__ env wd sd r) P ++ ".download").
Proof.
  intros Hcwd.
  assert (product_filename (__init__ env wd sd r) P
          = join (source_directory (__init__ env wd sd r))
              (basename (product_URL P))) as -> by (destruct P; reflexivity).
  unfold __init__. cbn [source_directory]. rewrite abspath_anchored.
  set (z := anchored env _).
  assert (isabs z = true) as Hz by now apply anchored_isabs.
  split; [now apply normpath_canonical|].
  split.
  - apply join_canonical; [exact Hz | destruct P; vm_compute; reflexivity].
  - rewrite <- join_append_tail
      by (destruct P; vm_compute; (discriminate || reflexivity)).
    apply join_canonical; [exact Hz | destruct P; vm_compute; reflexivity].
Qed.

End Instances.

(** ** The file a download leaves *)

Section Downloads.
Import PyStr PosixPath PathShape OS Program.
Import PathFacts OSFacts AbsFacts NormFacts ProgramFacts RunFacts.

Variable Geometry : Type.
Variable system : string -> OS.state -> Z * OS.state.

Local Abbreviation State := (State Geometry).
Local Abbreviation download_file := (download_file Geometry system).


End Downloads.

(** ** The claims on the small world *)

Module Witness.
Import PyStr PosixPath Numeric Rasters OS Program Example.

Lemma first_run_returns : first_run = (fst first_run, inr out_grid).
Proof.
  apply injective_projections; [reflexivity | vm_compute; reflexivity].
Defined.

Lemma first_run_opens :
  open_bytes (files (os (fst first_run)))
    (product_filename (self fresh) FieldCapacity) None
    (effective_resampling (self fresh) None) = inr raw_grid.
Proof. vm_compute. reflexivity. Defined.

Lemma single_run_returns : single_run = (fst single_run, inr single_out).
Proof.
  apply injective_projections; [reflexivity | vm_compute; reflexivity].
Defined.

Lemma single_run_opens :
  open_as single_grid (files (os (fst single_run)))
    (product_filename (self fresh) FieldCapacity) None
    (effective_resampling (self fresh) None) = inr single_grid.
Proof. vm_compute. reflexivity. Defined.

(** On the grid of one cell: the cell is not-a-number, and what comes back
    is a bare array. *)
Lemma sentinel_becomes_missing_witness :
  cell_at (cells single_out) 0 0 = Some NaN
  /\ single_out = as_ndarray (cells single_out)
  /\ (size (array single_grid) <> 1%nat ->
      exists image, single_out = as_raster image /\ nodata image = Some NaN).
Proof.
  destruct (sentinel_becomes_missing unit wget (open_as single_grid)
              FieldCapacity None None fresh (fst single_run) single_out
              single_grid) as (Hcell & Hraster & Harray).
  - exact single_run_returns.
  - exact single_run_opens.
  - split; [|split].
    + apply (Hcell 0%nat 0%nat (Fin 255)); reflexivity.
    + apply Harray. reflexivity.
    + exact Hraster.
Defined.

(** On the grid of five cells it is a raster that declares not-a-number
    as missing. *)
Example five_cells_raster :
  exists image, out_grid = as_raster image /\ nodata image = Some NaN.
Proof. eexists. split; reflexivity. Qed.

Lemma percent_maps_to_fraction_witness :
  cell_at (cells out_grid) 0 1 = Some (Fin (50 / 100))
  /\ (0 <= 50 / 100)%Q /\ (50 / 100 <= 1)%Q
  /\ cell_clip (Fin (50 / 100)) 0 1 = Fin (50 / 100).
Proof.
  destruct (percent_maps_to_fraction unit wget open_bytes FieldCapacity None
              None fresh (fst first_run) out_grid raw_grid 0 1 50)
    as (Hkept & _ & Hrest).
  - exact first_run_returns.
  - exact first_run_opens.
  - reflexivity.
  - vm_compute. discriminate.
  - vm_compute. discriminate.
  - split; [apply Hkept; reflexivity | exact Hrest].
Defined.

Lemma marked_low_run_returns :
  marked_low_run = (fst marked_low_run, inr marked_low_out).
Proof.
  apply injective_projections; [reflexivity | vm_compute; reflexivity].
Defined.

(** A grid that declares 50 as missing and holds 50 in its first cell:
    [FC] returns not-a-number there, not 50 / 100. *)
Lemma percent_maps_to_fraction_counterexample :
  marked_low_run = (fst marked_low_run, inr marked_low_out)
  /\ open_as marked_low (files (os (fst marked_low_run)))
       (product_filename (self fresh) FieldCapacity) None
       (effective_resampling (self fresh) None) = inr marked_low
  /\ cell_at (array marked_low) 0 0 = Some (Fin 50)
  /\ (0 <= 50)%Q /\ (50 <= 100)%Q
  /\ cell_at (cells marked_low_out) 0 0 = Some NaN
  /\ cell_at (cells marked_low_out) 0 0 <> Some (Fin (50 / 100)).
Proof.
  split; [exact marked_low_run_returns|].
  split; [vm_compute; reflexivity|].
  split; [reflexivity|].
  split; [vm_compute; discriminate|].
  split; [vm_compute; discriminate|].
  split; [reflexivity | discriminate].
Qed.

Lemma above_hundred_clamps_to_one_witness :
  cell_at (cells out_grid) 0 3 = Some (Fin 1) /\ ~ (180 / 100 == 1)%Q.
Proof.
  destruct (above_hundred_clamps_to_one unit wget open_bytes FieldCapacity
              None None fresh (fst first_run) out_grid raw_grid 0 3 180)
    as (Hkept & _ & Hrest).
  - exact first_run_returns.
  - exact first_run_opens.
  - reflexivity.
  - vm_compute. reflexivity.
  - vm_compute. reflexivity.
  - split; [apply Hkept; reflexivity | exact Hrest].
Defined.

Lemma marked_high_run_returns :
  marked_high_run = (fst marked_high_run, inr marked_high_out).
Proof.
  apply injective_projections; [reflexivity | vm_compute; reflexivity].
Defined.

(** A grid that declares 180 as missing and holds 180 in its first cell:
    [FC] returns not-a-number there, not 1. *)
Lemma above_hundred_clamps_to_one_counterexample :
  marked_high_run = (fst marked_high_run, inr marked_high_out)
  /\ open_as marked_high (files (os (fst marked_high_run)))
       (product_filename (self fresh) FieldCapacity) None
       (effective_resampling (self fresh) None) = inr marked_high
  /\ cell_at (array marked_high) 0 0 = Some (Fin 180)
  /\ (100 < 180)%Q /\ (180 < 255)%Q
  /\ cell_at (cells marked_high_out) 0 0 = Some NaN
  /\ cell_at (cells marked_high_out) 0 0 <> Some (Fin 1).
Proof.
  split; [exact marked_high_run_returns|].
  split; [vm_compute; reflexivity|].
  split; [reflexivity|].
  split; [vm_compute; reflexivity|].
  split; [vm_compute; reflexivity|].
  split; [reflexivity | discriminate].
Qed.

Lemma makedirs_fresh :
  makedirs (dirname fc_file) (os fresh) = inr after_makedirs.
Proof. vm_compute. reflexivity. Defined.

Lemma wget_FC :
  wget (wget_command (fc_file ++ ".download") FC_URL) after_makedirs
  = (0%Z, after_wget_FC).
Proof. vm_compute. reflexivity. Defined.


Lemma wget_FC_writes_only :
  writes_only (fc_file ++ ".download") after_makedirs after_wget_FC.
Proof.
  intros p Hp. unfold after_wget_FC. cbn [files].
  apply String.eqb_neq in Hp. rewrite Hp. reflexivity.
Defined.



Lemma download_file_cache_hit_witness :
  download_file unit wget FC_URL fc_file (fst first_run)
  = (add_log (file_already_downloaded fc_file) (fst first_run), inr fc_file)
  /\ os (fst (download_file unit wget FC_URL fc_file (fst first_run)))
     = os (fst first_run)
  /\ trace (fst (download_file unit wget FC_URL fc_file (fst first_run)))
     = trace (fst first_run)
  /\ (forall P g r,
        fc_file = product_filename (self (fst first_run)) P ->
        os (fst (accessor unit wget open_bytes P g r (fst first_run)))
        = os (fst first_run)
        /\ transfers
             (trace (fst (accessor unit wget open_bytes P g r (fst first_run))))
           = transfers (trace (fst first_run))).
Proof.
  apply (download_file_cache_hit unit wget open_bytes FC_URL fc_file
           (fst first_run)).
  vm_compute. reflexivity.
Defined.

Lemma download_file_success_witness :
  fc_file = join (source_directory (self fresh)) (basename FC_URL)
  /\ (forall s' x,
        download_file unit wget FC_URL fc_file fresh = (s', inr x) ->
        x = fc_file
        /\ exists_ (os s') fc_file = true
        /\ exists_ (os s') (fc_file ++ ".download") = false)
  /\ exists s', download_file unit wget FC_URL fc_file fresh = (s', inr fc_file).
Proof.
  destruct (download_file_success unit wget FieldCapacity fresh after_makedirs
              after_wget_FC 0%Z) as (Hjoin & Hpost & Hreturns).
  - vm_compute. reflexivity.
  - exact makedirs_fresh.
  - exact wget_FC.
  - vm_compute. reflexivity.
  - split; [exact Hjoin|]. split; [exact Hpost|].
    exact (Hreturns wget_FC_writes_only).
Defined.

Lemma directories_absolute_expanded_witness :
  let sg := __init__ env (Some "~/soil") (Some "cache/grids") "nearest" in
  isabs (working_directory sg) = true
  /\ isabs (source_directory sg) = true
  /\ (forall w, Some "~/soil" = Some w ->
        working_directory sg = abspath env (expanduser env w))
  /\ (forall d, Some "cache/grids" = Some d ->
        source_directory sg = abspath env (expanduser env d))
  /\ (forall s : State unit, self s = sg ->
        (forall URL f, self (fst (download_file unit wget URL f s)) = sg)
        /\ (forall g x, self (fst (FC unit wget open_bytes g x s)) = sg)
        /\ (forall g x, self (fst (WP unit wget open_bytes g x s)) = sg)).
Proof.
  apply (directories_absolute_expanded unit wget open_bytes env
           (Some "~/soil") (Some "cache/grids") "nearest").
  reflexivity.
Defined.

(** A bare file name: the call stops at the directory creation. *)
Example bare_name :
  snd (download_file unit wget FC_URL "grid.tif" fresh)
  = inl (FileNotFoundError "")
  /\ trace (fst (download_file unit wget FC_URL "grid.tif" fresh))
     = [call_makedirs ""].
Proof. split; vm_compute; reflexivity. Qed.

(** The directories of that instance. *)
Example expanded_directories :
  let sg := __init__ env (Some "~/soil") (Some "cache/grids") "nearest" in
  working_directory sg = "/home/user/soil"
  /\ source_directory sg = "/home/user/project/cache/grids".
Proof. split; vm_compute; reflexivity. Qed.

(** A second call, with another resampling, opens the cached file with
    that resampling and calls no transfer. *)
Example second_call_trace :
  trace (fst (FC unit wget open_bytes None (Some "nearest") (fst first_run)))
  = (trace (fst first_run) ++ [call_open fc_file None "nearest"])%list
  /\ resampling (self (fst (FC unit wget open_bytes None (Some "nearest")
                             (fst first_run)))) = "cubic".
Proof. split; vm_compute; reflexivity. Qed.

End Witness.

(** ** The further properties on the small world *)

Module CoverageWitness.
Import PyStr PosixPath PathShape Numeric Rasters OS Program Example.

Lemma first_run_raster : first_run = (fst first_run, inr out_grid).
Proof.
  apply injective_projections; [reflexivity | vm_compute; reflexivity].
Defined.

Lemma first_run_raw :
  open_bytes (files (os (fst first_run)))
    (product_filename (self fresh) FieldCapacity) None
    (effective_resampling (self fresh) None) = inr raw_grid.
Proof. vm_compute. reflexivity. Defined.

Lemma wide_run_raster : wide_run = (fst wide_run, inr wide_out).
Proof.
  apply injective_projections; [reflexivity | vm_compute; reflexivity].
Defined.

Lemma wide_run_raw :
  open_wide (files (os (fst wide_run)))
    (product_filename (self fresh) FieldCapacity) None
    (effective_resampling (self fresh) None) = inr wide_grid.
Proof. vm_compute. reflexivity. Defined.

Lemma fc_download_returns : fc_download = (fst fc_download, inr fc_file).
Proof.
  apply injective_projections; [reflexivity | vm_compute; reflexivity].
Defined.

Lemma unreadable_run_raises :
  unreadable_run
  = (fst unreadable_run, inl (RasterError "not a raster file")).
Proof.
  apply injective_projections; [reflexivity | vm_compute; reflexivity].
Defined.


Lemma fresh_WP_absent : exists_ (os fresh) wp_file = false.
Proof. vm_compute. reflexivity. Defined.


Lemma makedirs_WP :
  makedirs (dirname wp_file) (os fresh) = inr after_makedirs.
Proof. vm_compute. reflexivity. Defined.


Lemma transfer_WP :
  wget (wget_command (wp_file ++ ".download") WP_URL) after_makedirs
  = (4%Z, after_wget_WP).
Proof. vm_compute. reflexivity. Defined.



Lemma returned_cells_in_unit_interval_witness :
  Fin (50 / 100) = NaN
  \/ exists q, Fin (50 / 100) = Fin q /\ (0 <= q)%Q /\ (q <= 1)%Q.
Proof.
  apply (returned_cells_in_unit_interval unit wget open_bytes FieldCapacity
           None None fresh (fst first_run) out_grid 0 1 (Fin (50 / 100))).
  - exact first_run_raster.
  - reflexivity.
Defined.

Lemma marked_run_returns :
  marked_low_run = (fst marked_low_run, inr marked_low_out).
Proof.
  apply injective_projections; [reflexivity | vm_compute; reflexivity].
Defined.

Lemma marked_run_raw :
  open_as marked_low (files (os (fst marked_low_run)))
    (product_filename (self fresh) FieldCapacity) None
    (effective_resampling (self fresh) None) = inr marked_low.
Proof. vm_compute. reflexivity. Defined.

Lemma single_run_array : single_run = (fst single_run, inr single_out).
Proof.
  apply injective_projections; [reflexivity | vm_compute; reflexivity].
Defined.

Lemma single_run_raw :
  open_as single_grid (files (os (fst single_run)))
    (product_filename (self fresh) FieldCapacity) None
    (effective_resampling (self fresh) None) = inr single_grid.
Proof. vm_compute. reflexivity. Defined.

(** The cell that holds the declared missing value 50. *)
Lemma missing_only_from_sentinel_witness :
  cell_at (cells marked_low_out) 0 0 = Some NaN
  <-> (Fin 50 = NaN \/ cell_eqb (Fin 50) (Fin 255) = true
       \/ declared_missing marked_low (Fin 50) = true).
Proof.
  apply (missing_only_from_sentinel unit wget (open_as marked_low)
           FieldCapacity None None fresh (fst marked_low_run) marked_low_out
           marked_low 0 0 (Fin 50)).
  - exact marked_run_returns.
  - exact marked_run_raw.
  - reflexivity.
Defined.

(** The grid of one cell comes back as a bare array of one cell. *)
Lemma shape_and_geometry_kept_witness :
  List.length (cells single_out) = List.length (array single_grid)
  /\ (forall i j, cell_at (cells single_out) i j = None
                  <-> cell_at (array single_grid) i j = None)
  /\ (size (array single_grid) <> 1%nat ->
      exists image,
        single_out = as_raster image /\ geometry image = geometry single_grid)
  /\ (size (array single_grid) = 1%nat ->
      single_out = as_ndarray (cells single_out)).
Proof.
  apply (shape_and_geometry_kept unit wget (open_as single_grid)
           FieldCapacity None None fresh (fst single_run) single_out
           single_grid).
  - exact single_run_array.
  - exact single_run_raw.
Defined.

Lemma out_of_range_values_clamped_witness :
  ((-5 # 1 < 0)%Q -> cell_at (cells wide_out) 0 0 = Some (Fin 0))
  /\ ((255 < -5 # 1)%Q -> cell_at (cells wide_out) 0 0 = Some (Fin 1)).
Proof.
  apply (out_of_range_values_clamped unit wget open_wide FieldCapacity None
           None fresh (fst wide_run) wide_out wide_grid 0 0 (-5 # 1)).
  - exact wide_run_raster.
  - exact wide_run_raw.
  - reflexivity.
  - reflexivity.
Defined.

Lemma download_file_returns_its_target_witness :
  fc_file = fc_file
  /\ exists_ (os (fst fc_download)) fc_file = true
  /\ self (fst fc_download) = self fresh.
Proof.
  apply (download_file_returns_its_target unit wget FC_URL fc_file fc_file
           fresh (fst fc_download)).
  exact fc_download_returns.
Defined.

Lemma completed_logged_whatever_the_outcome_witness :
  log (fst wp_download)
  = (log fresh
     ++ [downloading WP_URL wp_file;
         completed_download (clock after_wget_WP - clock after_makedirs)
           wp_file])%list.
Proof.
  apply (completed_logged_whatever_the_outcome unit wget WP_URL wp_file fresh
           after_makedirs after_wget_WP 4%Z).
  - exact fresh_WP_absent.
  - exact makedirs_WP.
  - exact transfer_WP.
Defined.

Lemma file_in_place_of_directory_witness :
  exists s',
    download_file unit wget FC_URL fc_file blocked
    = (s', inl (FileExistsError (dirname fc_file)))
    /\ os s' = os blocked
    /\ transfers (trace s') = transfers (trace blocked).
Proof.
  apply (file_in_place_of_directory unit wget FC_URL fc_file "notes" blocked).
  - vm_compute. reflexivity.
  - vm_compute. reflexivity.
Defined.


Lemma failed_download_skips_open_witness :
  snd (WP unit wget open_bytes None None fresh)
  = inl (IOError ("unable to download URL: " ++ WP_URL))
  /\ trace (fst (WP unit wget open_bytes None None fresh))
     = (trace fresh
        ++ [call_makedirs (dirname wp_file);
            call_system (wget_command (wp_file ++ ".download") WP_URL)])%list.
Proof.
  apply (failed_download_skips_open unit wget open_bytes WiltingPoint None
           None fresh after_makedirs after_wget_WP 4%Z).
  - exact fresh_WP_absent.
  - exact makedirs_WP.
  - exact transfer_WP.
  - vm_compute. reflexivity.
Defined.

Lemma unreadable_file_not_fetched_again_witness :
  exists_ (os (fst unreadable_run))
    (product_filename (self (fst unreadable_run)) FieldCapacity) = true
  /\ transfers
       (trace (fst (FC unit wget open_bytes None (Some "nearest")
                      (fst unreadable_run))))
     = transfers (trace (fst unreadable_run)).
Proof.
  apply (unreadable_file_not_fetched_again unit wget open_bytes FieldCapacity
           None None None (Some "nearest") unreadable (fst unreadable_run)
           "not a raster file").
  exact unreadable_run_raises.
Defined.

Lemma repeated_call_same_raster_witness :
  FC unit wget open_bytes None None (fst first_run)
  = (record unit
       (call_open (product_filename (self (fst first_run)) FieldCapacity)
          None (effective_resampling (self (fst first_run)) None))
       (fst first_run),
     inr out_grid).
Proof.
  apply (repeated_call_same_raster unit wget open_bytes FieldCapacity None
           None fresh (fst first_run) out_grid).
  exact first_run_raster.
Defined.


Lemma default_source_directory_witness :
  source_directory home_instance
  = join (working_directory home_instance) DEFAULT_DOWNLOAD_DIRECTORY.
Proof.
  apply (default_source_directory env (Some "~/soil/../grids")
           DEFAULT_RESAMPLING).
  reflexivity.
Defined.

Lemma default_working_directory_witness :
  working_directory (__init__ env None (Some "cache") DEFAULT_RESAMPLING)
  = normpath (getcwd env).
Proof.
  apply (default_working_directory env (Some "cache") DEFAULT_RESAMPLING).
  reflexivity.
Defined.

Lemma product_file_in_source_directory_witness :
  dirname (product_filename home_instance WiltingPoint)
  = source_directory home_instance
  /\ basename (product_filename home_instance WiltingPoint)
     = basename (product_URL WiltingPoint).
Proof.
  apply (product_file_in_source_directory env (Some "~/soil/../grids") None
           DEFAULT_RESAMPLING WiltingPoint).
  reflexivity.
Defined.

Lemma instance_from_its_attributes_witness :
  __init__ env
    (Some (working_directory home_instance))
    (Some (source_directory home_instance))
    (resampling home_instance)
  = home_instance.
Proof.
  apply (instance_from_its_attributes env (Some "~/soil/../grids") None
           DEFAULT_RESAMPLING).
  reflexivity.
Defined.

Lemma product_names_canonical_witness :
  canonical (source_directory home_instance)
  /\ canonical (product_filename home_instance FieldCapacity)
  /\ canonical (product_filename home_instance FieldCapacity ++ ".download").
Proof.
  apply (product_names_canonical env (Some "~/soil/../grids") None
           DEFAULT_RESAMPLING FieldCapacity).
  reflexivity.
Defined.

(** The directories of the instance below the home directory. *)
Example home_directories :
  working_directory home_instance = "/home/user/grids"
  /\ source_directory home_instance = "/home/user/grids/SoilGrids_download".
Proof. split; vm_compute; reflexivity. Qed.

(** A grid that declares no missing value: only the sentinel becomes the
    marker. *)
Example undeclared_grid_run :
  undeclared_run = (fst undeclared_run, inr undeclared_out).
Proof.
  apply injective_projections; [reflexivity | vm_compute; reflexivity].
Qed.

(** The clamped cells of the wide raster. *)
Example wide_cells :
  cell_at (cells wide_out) 0 0 = Some (Fin 0)
  /\ cell_at (cells wide_out) 0 1 = Some (Fin 1).
Proof. split; reflexivity. Qed.

End CoverageWitness.

